(** * promp.replayable: the recording and replaying wrapper of InteractiveProMP

    A shallow embedding of [src/promp/replayable.py], the class
    [ReplayableInteractiveProMP], and the properties of its dataset
    identity, recording, [close] and [play] paths.

    Modelling conventions.
    - Python values that are dumped to or loaded from JSON files are
      terms of [json]; [JNull] is Python's [None].  The recorder never
      looks inside a payload, so numbers are kept as integers.
    - The file system is a finite map from paths to the value a file
      holds, plus the set of directories.  [json.dump] followed by
      [json.load] is the identity on [json].  Opening a file for writing
      succeeds; opening a missing file for reading raises [IOError].
    - The superclass [InteractiveProMP] lives in [promp/interactive.py]
      and is taken as an interface ([Learner]): a state type with the
      operations the recorder calls.  Its state is disjoint from the
      attributes the subclass adds, and it does not call back into the
      methods overridden here.
    - Every method is a function [State -> res A * State]: the result is
      a value or a raised exception, and the state is the one reached
      when the method returns or the exception leaves it.
    - [trace] is a ghost log of the writes, reads and superclass calls
      in the order they happen. *)

From Stdlib Require Import ZArith Lia List Ascii String.
From stdpp Require Import base gmap strings pretty list.

Local Open Scope string_scope.
Local Open Scope Z_scope.
Local Open Scope list_scope.
Set Warnings "-register-all".

(** ** Values, exceptions, results *)

Inductive json : Type :=
| JNull
| JBool (b : bool)
| JNum (z : Z)
| JStr (s : string)
| JArr (items : list json)
| JObj (fields : list (string * json)).

Inductive exn : Type :=
| IOError (path : string)
| KeyError (key : string)
| TypeError
| AttributeError
| OSError (path : string)
| LearnerError (code : Z).

Inductive res (A : Type) : Type :=
| Ok (a : A)
| Raise (e : exn).

Arguments Ok {A} a.
Arguments Raise {A} e.

(** ** Paths: [os.path.join] and [str.format] on an integer *)

Definition startswith_sep (s : string) : bool :=
  match s with
  | String c _ => Ascii.eqb c "/"%char
  | EmptyString => false
  end.

Fixpoint endswith_sep (s : string) : bool :=
  match s with
  | EmptyString => false
  | String c EmptyString => Ascii.eqb c "/"%char
  | String _ rest => endswith_sep rest
  end.

(** [posixpath.join(a, b)] *)
Definition join (a b : string) : string :=
  if startswith_sep b then b
  else if String.eqb a "" || endswith_sep a then a +:+ b
  else a +:+ "/" +:+ b.

(** ['dataset_{}'.format(dataset_id)] and the per-occurrence file names *)
Definition dataset_name (dataset_id : Z) : string := "dataset_" +:+ pretty dataset_id.
Definition demo_name (i : Z) : string := "demo_" +:+ pretty i +:+ ".json".
Definition path_name (i : Z) : string := "path_" +:+ pretty i +:+ ".json".
Definition cart_goal_name (i : Z) : string := "cart_goal_" +:+ pretty i +:+ ".json".
Definition joint_goal_name (i : Z) : string := "joint_goal_" +:+ pretty i +:+ ".json".
Definition sequence_name : string := "sequence.json".

(** ** File system *)

Record FS : Type := mkFS {
  files : gmap string json;
  dirs : gset string
}.

(** [os.path.exists] *)
Definition path_exists (fs : FS) (p : string) : bool :=
  bool_decide (p ∈ dirs fs) || bool_decide (is_Some (files fs !! p)).

(** [os.path.isfile] *)
Definition isfile (fs : FS) (p : string) : bool :=
  bool_decide (is_Some (files fs !! p)).

(** [os.makedirs]: the directory [p] is there afterwards.  The real
    call also makes every missing parent of [p]; those are not tracked,
    so the properties below say what exists, never what does not get
    made.  Only dataset paths are ever queried by this class. *)
Definition makedirs (p : string) (fs : FS) : FS :=
  mkFS (files fs) ({[ p ]} ∪ dirs fs).

Definition write_file (p : string) (v : json) (fs : FS) : FS :=
  mkFS (<[ p := v ]> (files fs)) (dirs fs).

(** ** Dataset identity (lines 21-35 of [__init__]) *)

Definition get_dataset_path (path_ds : string) (dataset_id : Z) : string :=
  join path_ds (dataset_name dataset_id).

(** [range(n)] *)
Definition range (n : nat) : list Z := map Z.of_nat (seq 0 n).

(** The loop of [generate_next_dataset] over the ids still to visit:
    the first id whose path does not exist, with that path. *)
Fixpoint scan_datasets (path_ds : string) (fs : FS) (ids : list Z) : option (Z * string) :=
  match ids with
  | [] => None
  | id :: rest =>
      let path := get_dataset_path path_ds id in
      if negb (path_exists fs path) then Some (id, path)
      else scan_datasets path_ds fs rest
  end.

(** [generate_next_dataset()]: the new value of [self.id] and what is
    returned, [None] when the loop ends without a [return]. *)
Definition generate_next_dataset (path_ds : string) (self_id : Z) (fs : FS) : Z * option string :=
  match scan_datasets path_ds fs (range 100) with
  | Some (id, path) => (id, Some path)
  | None => (self_id, None)
  end.

(** Lines 21-35: [self.id], [self.dataset_path] and the directory.
    [exists(None)] raises [TypeError]. *)
Definition resolve_dataset (path_ds : string) (dataset_id : Z) (fs : FS) : res (Z * string) * FS :=
  let '(self_id, dataset_path) :=
    if dataset_id <? 0 then generate_next_dataset path_ds dataset_id fs
    else (dataset_id, Some (get_dataset_path path_ds dataset_id)) in
  match dataset_path with
  | None => (Raise TypeError, fs)
  | Some p =>
      if negb (path_exists fs p) then (Ok (self_id, p), makedirs p fs)
      else (Ok (self_id, p), fs)
  end.

(** ** The superclass as an interface *)

(** Modelled from the spec: the superclass [InteractiveProMP] of
    [promp/interactive.py], which is not among the sources.  It is a
    parameter: what [ReplayableInteractiveProMP] calls and reads of it,
    with the signatures of the call sites and of section 6.  An
    argument the recorder leaves out of a call is [None]: the default
    is the superclass's business.  Every operation returns the new
    superclass state and a value or an exception. *)
Class Learner (L : Type) : Type := {
  (** [InteractiveProMP.__init__(..., path_plots)] *)
  L_init : string -> res L;
  (** [add_demonstration(demonstration, eef_demonstration, force_mp_target=...)] *)
  L_add_demonstration : json -> json -> option Z -> L -> L * res Z;
  (** [set_goal(x_des, joint_des, refining=...)] *)
  L_set_goal : json -> json -> option bool -> L -> L * res bool;
  (** [generate_trajectory()] *)
  L_generate_trajectory : L -> L * res json;
  (** [clear()] *)
  L_clear : L -> L * res unit;
  (** the attributes [goal_id], [goal_log] and the property [num_primitives] *)
  L_goal_id : L -> json;
  L_goal_log : L -> json;
  L_num_primitives : L -> nat
}.

(** The ghost log. *)
Inductive Obs : Type :=
| OWrite (path : string) (v : json)
| ORead (path : string)
| OAddDemonstration (demonstration eef_demonstration : json) (force_mp_target : option Z)
| OSetGoal (x_des joint_des : json) (refining : option bool)
| OGenerateTrajectory
| OClear.

(** The events of the sequence and of the timeline, as the dicts the
    code builds. *)
Definition demo_event (added_to : Z) : json :=
  JObj [("type", JStr "demo"); ("added_to", JNum added_to)].

Definition goal_event (goal_id goal_log : json) : json :=
  JObj [("type", JStr "goal"); ("id", goal_id); ("log", goal_log)].

Definition demo_result (target : Z) : json :=
  JObj [("type", JStr "demo"); ("added_to", JNum target)].

Definition goal_result (is_reached : bool) (goal_log trajectory : json) : json :=
  JObj [("type", JStr "goal"); ("is_reached", JBool is_reached);
        ("log", goal_log); ("trajectory", trajectory)].

(** [d[key]] on a loaded value: only a dict can be indexed by a string. *)
Fixpoint assoc (key : string) (fields : list (string * json)) : option json :=
  match fields with
  | [] => None
  | (k, v) :: rest => if String.eqb k key then Some v else assoc key rest
  end.

Definition getitem (event : json) (key : string) : res json :=
  match event with
  | JObj fields =>
      match assoc key fields with
      | Some v => Ok v
      | None => Raise (KeyError key)
      end
  | _ => Raise TypeError
  end.

(** [v == 'demo'] for a loaded value [v] *)
Definition str_eq (v : json) (s : string) : bool :=
  match v with
  | JStr s' => String.eqb s' s
  | _ => false
  end.

(** What [for event in v] visits: the items of a list, the keys of a
    dict, the characters of a string; anything else is not iterable. *)
Fixpoint chars (s : string) : list json :=
  match s with
  | EmptyString => []
  | String c rest => JStr (String c EmptyString) :: chars rest
  end.

Definition iterate (v : json) : res (list json) :=
  match v with
  | JArr items => Ok items
  | JObj fields => Ok (map (fun kv => JStr (fst kv)) fields)
  | JStr s => Ok (chars s)
  | _ => Raise TypeError
  end.

(** [v is None] *)
Definition is_none (v : json) : bool :=
  match v with
  | JNull => true
  | _ => false
  end.

(** An integer out of a loaded value, for [num_primitives <= v]
    ([bool] is a subtype of [int]; any other comparison raises). *)
Definition as_int (v : json) : option Z :=
  match v with
  | JNum z => Some z
  | JBool b => Some (if b then 1 else 0)
  | _ => None
  end.

(** ** The recorder *)

Section Recorder.

Context {L : Type} {LL : Learner L}.

Record State : Type := mkState {
  fs : FS;
  trace : list Obs;
  self_id : Z;
  dataset_path : string;
  record_demo_id : Z;
  record_goal_id : Z;
  sequence : json;
  learner : L
}.

Definition set_fs (x : FS) (st : State) : State :=
  mkState x (trace st) (self_id st) (dataset_path st) (record_demo_id st)
    (record_goal_id st) (sequence st) (learner st).
Definition log (o : Obs) (st : State) : State :=
  mkState (fs st) (trace st ++ [o]) (self_id st) (dataset_path st) (record_demo_id st)
    (record_goal_id st) (sequence st) (learner st).
Definition set_record_demo_id (x : Z) (st : State) : State :=
  mkState (fs st) (trace st) (self_id st) (dataset_path st) x
    (record_goal_id st) (sequence st) (learner st).
Definition set_record_goal_id (x : Z) (st : State) : State :=
  mkState (fs st) (trace st) (self_id st) (dataset_path st) (record_demo_id st)
    x (sequence st) (learner st).
Definition set_sequence (x : json) (st : State) : State :=
  mkState (fs st) (trace st) (self_id st) (dataset_path st) (record_demo_id st)
    (record_goal_id st) x (learner st).
Definition set_learner (x : L) (st : State) : State :=
  mkState (fs st) (trace st) (self_id st) (dataset_path st) (record_demo_id st)
    (record_goal_id st) (sequence st) x.

(** Computations of the methods. *)
Definition M (A : Type) : Type := State -> res A * State.

Definition ret {A} (a : A) : M A := fun st => (Ok a, st).

Definition bind {A B} (m : M A) (k : A -> M B) : M B :=
  fun st =>
    match m st with
    | (Ok a, st') => k a st'
    | (Raise e, st') => (Raise e, st')
    end.

Definition raise {A} (e : exn) : M A := fun st => (Raise e, st).

Definition get {A} (f : State -> A) : M A := fun st => (Ok (f st), st).

Definition modify (f : State -> State) : M unit := fun st => (Ok tt, f st).

Definition lift_res {A} (r : res A) : M A := fun st => (r, st).

End Recorder.

Arguments State L : clear implicits.
Arguments M L A : clear implicits.

Notation "x <- m ;; k" := (bind m (fun x => k))
  (at level 100, m at next level, right associativity).
Notation "m ;;; k" := (bind m (fun _ => k))
  (at level 100, right associativity).

Section Methods.

Context {L : Type} {LL : Learner L}.

(** [with open(p, 'w') as f: json.dump(v, f)] *)
Definition dump (p : string) (v : json) : M L unit :=
  modify (fun st => log (OWrite p v) (set_fs (write_file p v (fs st)) st)).

(** [with open(p) as f: json.load(f)] *)
Definition load (p : string) : M L json :=
  fun st =>
    match files (fs st) !! p with
    | Some v => (Ok v, log (ORead p) st)
    | None => (Raise (IOError p), st)
    end.

(** The calls to [super(ReplayableInteractiveProMP, self)]. *)
Definition super_add_demonstration (demonstration eef_demonstration : json)
    (force_mp_target : option Z) : M L Z :=
  fun st =>
    let '(l, r) := L_add_demonstration demonstration eef_demonstration force_mp_target (learner st) in
    (r, log (OAddDemonstration demonstration eef_demonstration force_mp_target) (set_learner l st)).

Definition super_set_goal (x_des joint_des : json) (refining : option bool) : M L bool :=
  fun st =>
    let '(l, r) := L_set_goal x_des joint_des refining (learner st) in
    (r, log (OSetGoal x_des joint_des refining) (set_learner l st)).

Definition super_generate_trajectory : M L json :=
  fun st =>
    let '(l, r) := L_generate_trajectory (learner st) in
    (r, log OGenerateTrajectory (set_learner l st)).

Definition super_clear : M L unit :=
  fun st =>
    let '(l, r) := L_clear (learner st) in
    (r, log OClear (set_learner l st)).

(** [self.sequence.append(x)]: only a list has [append]. *)
Definition sequence_append (x : json) : M L unit :=
  fun st =>
    match sequence st with
    | JArr items => (Ok tt, set_sequence (JArr (items ++ [x])) st)
    | _ => (Raise AttributeError, st)
    end.

(** [__init__], lines 21-41. *)
Definition init (path_ds : string) (dataset_id : Z) (path_plots : string) (fs0 : FS)
    : res (State L) * FS :=
  match resolve_dataset path_ds dataset_id fs0 with
  | (Raise e, fs1) => (Raise e, fs1)
  | (Ok (id, path), fs1) =>
      match L_init (join path_plots (dataset_name id)) with
      | Raise e => (Raise e, fs1)
      | Ok l => (Ok (mkState fs1 [] id path 0 0 (JArr []) l), fs1)
      end
  end.

(** [add_demonstration], lines 43-61. *)
Definition add_demonstration (demonstration eef_demonstration : json) : M L Z :=
  path <- get dataset_path ;;
  i <- get record_demo_id ;;
  let demonstration_file := join path (demo_name i) in
  let eef_demonstration_file := join path (path_name i) in
  dump demonstration_file demonstration ;;;
  dump eef_demonstration_file eef_demonstration ;;;
  promp_index <- super_add_demonstration demonstration eef_demonstration None ;;
  sequence_append (demo_event promp_index) ;;;
  n <- get record_demo_id ;;
  modify (set_record_demo_id (n + 1)) ;;;
  ret promp_index.

(** [set_goal], lines 63-80. *)
Definition set_goal (x_des joint_des : json) : M L bool :=
  ret_ <- super_set_goal x_des joint_des None ;;
  path <- get dataset_path ;;
  i <- get record_goal_id ;;
  let cartesian_goal_file := join path (cart_goal_name i) in
  let joint_goal_file := join path (joint_goal_name i) in
  dump cartesian_goal_file x_des ;;;
  (if is_none joint_des then ret tt else dump joint_goal_file joint_des) ;;;
  goal_id <- get (fun st => L_goal_id (learner st)) ;;
  goal_log <- get (fun st => L_goal_log (learner st)) ;;
  sequence_append (goal_event goal_id goal_log) ;;;
  n <- get record_goal_id ;;
  modify (set_record_goal_id (n + 1)) ;;;
  ret ret_.

(** [close], lines 82-88. *)
Definition close : M L unit :=
  path <- get dataset_path ;;
  let sequence_file := join path sequence_name in
  s <- get sequence ;;
  dump sequence_file s ;;;
  modify (set_record_demo_id 0) ;;;
  modify (set_record_goal_id 0) ;;;
  super_clear.

(** Line 98: [-1 if self.num_primitives <= receiving_promp else receiving_promp]. *)
Definition promp_target (num_primitives : nat) (receiving_promp : Z) : Z :=
  if Z.of_nat num_primitives <=? receiving_promp then -1 else receiving_promp.

(** [_play_next_demo], lines 90-100.  [receiving_promp] is what [play]
    read in the manifest: the comparison of line 98 needs an integer. *)
Definition _play_next_demo (receiving_promp : json) : M L Z :=
  path <- get dataset_path ;;
  i <- get record_demo_id ;;
  let demonstration_file := join path (demo_name i) in
  let eef_demonstration_file := join path (path_name i) in
  demonstration <- load demonstration_file ;;
  eef_demonstration <- load eef_demonstration_file ;;
  modify (set_record_demo_id (i + 1)) ;;;
  num_primitives <- get (fun st => L_num_primitives (learner st)) ;;
  match as_int receiving_promp with
  | None => raise TypeError
  | Some r =>
      super_add_demonstration demonstration eef_demonstration
        (Some (promp_target num_primitives r))
  end.

(** [_play_next_goal], lines 102-115. *)
Definition _play_next_goal (refining : bool) : M L (bool * json) :=
  path <- get dataset_path ;;
  i <- get record_goal_id ;;
  let cartesian_goal_file := join path (cart_goal_name i) in
  let joint_goal_file := join path (joint_goal_name i) in
  x_des <- load cartesian_goal_file ;;
  is_file <- get (fun st => isfile (fs st) joint_goal_file) ;;
  joint_des <- (if is_file : bool then load joint_goal_file else ret JNull) ;;
  modify (set_record_goal_id (i + 1)) ;;;
  result <- super_set_goal x_des joint_des (Some refining) ;;
  trajectory <- (if result : bool then super_generate_trajectory else ret JNull) ;;
  ret (result, trajectory).

(** The [for event in self.sequence] loop of [play], lines 132-138. *)
Fixpoint play_loop (keep_targets refining : bool) (events timeline : list json)
    : M L (list json) :=
  match events with
  | [] => ret timeline
  | event :: rest =>
      ty <- lift_res (getitem event "type") ;;
      if str_eq ty "demo" then
        receiving <- (if keep_targets then lift_res (getitem event "added_to")
                      else ret (JNum (-1))) ;;
        target <- _play_next_demo receiving ;;
        play_loop keep_targets refining rest (timeline ++ [demo_result target])
      else if str_eq ty "goal" then
        r <- _play_next_goal refining ;;
        goal_log <- get (fun st => L_goal_log (learner st)) ;;
        play_loop keep_targets refining rest
          (timeline ++ [goal_result (fst r) goal_log (snd r)])
      else play_loop keep_targets refining rest timeline
  end.

(** [play], lines 117-139. *)
Definition play (keep_targets refining : bool) : M L (list json) :=
  modify (set_record_demo_id 0) ;;;
  modify (set_record_goal_id 0) ;;;
  path <- get dataset_path ;;
  let sequence_file := join path sequence_name in
  loaded <- load sequence_file ;;
  modify (set_sequence loaded) ;;;
  events <- lift_res (iterate loaded) ;;
  play_loop keep_targets refining events [].

(** ** A recording session, for the statements *)

(** One call of the recording interface, and what it returned. *)
Inductive Call : Type :=
| CallDemo (demonstration eef_demonstration : json)
| CallGoal (x_des joint_des : json).

Inductive Outcome : Type :=
| AddedTo (promp_index : Z)
| IsReached (ret_ : bool).

Definition record_one (c : Call) : M L Outcome :=
  match c with
  | CallDemo d e => k <- add_demonstration d e ;; ret (AddedTo k)
  | CallGoal x j => b <- set_goal x j ;; ret (IsReached b)
  end.

(** The calls made one after the other, each returning normally. *)
Fixpoint record (calls : list Call) : M L (list Outcome) :=
  match calls with
  | [] => ret []
  | c :: rest =>
      o <- record_one c ;;
      os <- record rest ;;
      ret (o :: os)
  end.

End Methods.

Definition is_demo (c : Call) : bool :=
  match c with CallDemo _ _ => true | CallGoal _ _ => false end.

Definition is_goal (c : Call) : bool :=
  match c with CallDemo _ _ => false | CallGoal _ _ => true end.

(** The events of a manifest that [play] treats as demos and as goals. *)
Definition event_is (kind : string) (event : json) : bool :=
  match getitem event "type" with
  | Ok ty => str_eq ty kind
  | Raise _ => false
  end.

(** What an entry of the timeline reports. *)
Definition observe (entry : json) : option Outcome :=
  match getitem entry "type" with
  | Ok ty =>
      if str_eq ty "demo" then
        match getitem entry "added_to" with
        | Ok (JNum k) => Some (AddedTo k)
        | _ => None
        end
      else if str_eq ty "goal" then
        match getitem entry "is_reached" with
        | Ok (JBool b) => Some (IsReached b)
        | _ => None
        end
      else None
  | Raise _ => None
  end.

(** ** A small superclass instance, to run the recorder on *)

Module Toy.

(** As many entries as primitives, each counting its demonstrations. *)
Record T : Type := mk {
  promps : list nat;
  goal_id : Z;
  goal_log : json
}.

Definition fresh : T := mk [] (-1) JNull.

(** The primitive a demonstration goes to when no target is forced:
    the one it names, or a new one. *)
Definition choose (demonstration : json) (l : T) : Z :=
  let n := Z.of_nat (length (promps l)) in
  match demonstration with
  | JNum k => if (0 <=? k) && (k <? n) then k else n
  | _ => n
  end.

Definition add_demonstration (demonstration eef_demonstration : json)
    (force_mp_target : option Z) (l : T) : T * res Z :=
  let n := Z.of_nat (length (promps l)) in
  match demonstration with
  | JNull => (l, Raise (LearnerError 1))
  | _ =>
      let target :=
        match force_mp_target with
        | Some k => if k =? -1 then choose demonstration l else k
        | None => choose demonstration l
        end in
      if (0 <=? target) && (target <? n) then
        (mk (alter S (Z.to_nat target) (promps l)) (goal_id l) (goal_log l), Ok target)
      else if target =? n then
        (mk (promps l ++ [1%nat]) (goal_id l) (goal_log l), Ok target)
      else (l, Raise (LearnerError 2))
  end.

Definition set_goal (x_des joint_des : json) (refining : option bool) (l : T) : T * res bool :=
  match x_des with
  | JNull => (l, Raise (LearnerError 3))
  | JNum k =>
      (mk (promps l) (goal_id l + 1) x_des,
       Ok ((0 <=? k) && (k <? Z.of_nat (length (promps l)))))
  | _ => (mk (promps l) (goal_id l + 1) x_des, Ok false)
  end.

Definition generate_trajectory (l : T) : T * res json :=
  (l, Ok (JArr [goal_log l])).

Definition clear (l : T) : T * res unit := (fresh, Ok tt).

#[global] Instance learner : Learner T := {|
  L_init := fun _ => Ok fresh;
  L_add_demonstration := add_demonstration;
  L_set_goal := set_goal;
  L_generate_trajectory := generate_trajectory;
  L_clear := clear;
  L_goal_id := fun l => JNum (goal_id l);
  L_goal_log := goal_log;
  L_num_primitives := fun l => length (promps l)
|}.

(** An empty datasets folder ["ds"], and one where every id of the
    scan is taken. *)
Definition empty_fs : FS := mkFS ∅ ∅.

Definition full_fs : FS :=
  mkFS ∅ (list_to_set (map (get_dataset_path "ds") (range 100))).

(** The recorder that [__init__] builds on [empty_fs] with a negative
    id, and the one built next on the file system it leaves. *)
Definition st0 : State T :=
  mkState (mkFS ∅ {[ "ds/dataset_0" ]}) [] 0 "ds/dataset_0" 0 0 (JArr []) fresh.

Definition st0' : State T :=
  mkState (mkFS ∅ ({[ "ds/dataset_1" ]} ∪ {[ "ds/dataset_0" ]})) [] 1 "ds/dataset_1"
    0 0 (JArr []) fresh.

(** A session of one demonstration and one goal. *)
Definition session : list Call :=
  [CallDemo (JNum 7) (JStr "eef"); CallGoal (JNum 0) JNull].

(** A longer one: a new primitive, a goal it reaches, a demonstration
    that joins the primitive, a goal out of reach with a joint goal. *)
Definition long_session : list Call :=
  [CallDemo (JNum 7) (JStr "eef"); CallGoal (JNum 0) JNull;
   CallDemo (JNum 0) (JStr "eef2"); CallGoal (JNum 5) (JStr "joint")].

Definition recorded : State T := snd (record session st0).
Definition closed : State T := snd (close recorded).

(** A second pass on the instance that was just closed. *)
Definition second_pass : list Call := [CallDemo (JNum 7) (JStr "eef")].
Definition recorded_again : State T := snd (record second_pass closed).
Definition closed_again : State T := snd (close recorded_again).

End Toy.

(** ** The payload files of a dataset *)

(** The four per-occurrence files, and the counter that numbers each. *)
Inductive Kind : Type := KDemo | KPath | KCart | KJoint.

Definition payload_name (k : Kind) (i : Z) : string :=
  match k with
  | KDemo => demo_name i
  | KPath => path_name i
  | KCart => cart_goal_name i
  | KJoint => joint_goal_name i
  end.

Definition payload_file (path : string) (k : Kind) (i : Z) : string :=
  join path (payload_name k i).

Definition sequence_file (path : string) : string := join path sequence_name.

Definition counter_of {L} (k : Kind) (st : State L) : Z :=
  match k with
  | KDemo | KPath => record_demo_id st
  | KCart | KJoint => record_goal_id st
  end.

(** Modelled from the spec: the behaviour of the missing superclass
    that replaying with the recorded targets relies on (section 6 gives
    [refining=True] as the default and a trajectory after a goal that
    was taken; section 4.5 calls [-1] the value that lets the
    superclass choose):
    - leaving [refining] out means [refining=True];
    - the target [-1] means no target;
    - forcing the primitive that it would pick itself changes nothing;
    - after a goal that was taken, a trajectory is produced and the
      fitted state stays as it is. *)
Record Replayable (L : Type) {LL : Learner L} : Prop := {
  default_refining : forall x j l,
    L_set_goal x j (Some true) l = L_set_goal x j None l;
  choose_target : forall d e l,
    L_add_demonstration d e (Some (-1)) l = L_add_demonstration d e None l;
  forced_target : forall d e l l' k,
    L_add_demonstration d e None l = (l', Ok k) ->
    k < Z.of_nat (L_num_primitives l) ->
    L_add_demonstration d e (Some k) l = (l', Ok k);
  trajectory_pure : forall x j r l l',
    L_set_goal x j r l = (l', Ok true) ->
    exists t, L_generate_trajectory l' = (l', Ok t)
}.

(** ** Further notions for the statements *)

(** The payloads of the demonstrations and of the goals of a session,
    in call order. *)
Fixpoint demos_of (calls : list Call) : list (json * json) :=
  match calls with
  | [] => []
  | CallDemo d e :: rest => (d, e) :: demos_of rest
  | CallGoal _ _ :: rest => demos_of rest
  end.

Fixpoint goals_of (calls : list Call) : list (json * json) :=
  match calls with
  | [] => []
  | CallDemo _ _ :: rest => goals_of rest
  | CallGoal x j :: rest => (x, j) :: goals_of rest
  end.

(** The longer session closed, and its replay after the first
    demonstration: one primitive, the second demonstration next. *)
Definition long_closed : State Toy.T :=
  snd (close (snd (record Toy.long_session Toy.st0))).

Definition replaying : State Toy.T := snd (_play_next_demo (JNum 0) long_closed).

(** The closed session with a manifest that has an event of another
    type between its two events. *)
Definition annotated : State Toy.T :=
  set_fs (write_file "ds/dataset_0/sequence.json"
            (JArr [demo_event 0; JObj [("type", JStr "note")];
                   goal_event (JNum 0) (JNum 0)])
            (fs Toy.closed)) Toy.closed.

(** What the methods read and write of an instance and of the disk:
    everything but the ghost log and [self.id]. *)
Definition attrs {L} (st : State L)
    : FS * string * Z * Z * json * L :=
  (fs st, dataset_path st, record_demo_id st, record_goal_id st, sequence st, learner st).

(** A superclass whose constructor raises, and otherwise is [Toy]. *)
Definition failing_init : Learner Toy.T := {|
  L_init := fun _ => Raise (LearnerError 9);
  L_add_demonstration := Toy.add_demonstration;
  L_set_goal := Toy.set_goal;
  L_generate_trajectory := Toy.generate_trajectory;
  L_clear := Toy.clear;
  L_goal_id := fun l => JNum (Toy.goal_id l);
  L_goal_log := Toy.goal_log;
  L_num_primitives := fun l => length (Toy.promps l)
|}.

(** * Properties *)

(** ** Dataset identity *)

Lemma scan_datasets_Some path_ds fs ids id path :
  scan_datasets path_ds fs ids = Some (id, path) ->
  In id ids /\ path = get_dataset_path path_ds id /\ path_exists fs path = false.
Proof.
  induction ids as [|i ids IH]; simpl; [discriminate|].
  destruct (path_exists fs (get_dataset_path path_ds i)) eqn:E; simpl.
  - intros H. destruct (IH H) as (? & ? & ?). auto.
  - intros [= <- <-]. auto.
Qed.

Lemma scan_datasets_None path_ds fs ids :
  (forall id, In id ids -> path_exists fs (get_dataset_path path_ds id) = true) ->
  scan_datasets path_ds fs ids = None.
Proof.
  induction ids as [|i ids IH]; simpl; [reflexivity|].
  intros H. rewrite (H i) by auto. simpl. apply IH. auto.
Qed.

Lemma In_range n id : In id (range n) <-> 0 <= id < Z.of_nat n.
Proof.
  unfold range. rewrite in_map_iff. split.
  - intros (k & <- & Hk). apply in_seq in Hk. lia.
  - intros H. exists (Z.to_nat id). split; [lia|]. apply in_seq. lia.
Qed.

Lemma path_exists_makedirs p fs : path_exists (makedirs p fs) p = true.
Proof.
  unfold path_exists, makedirs. simpl.
  rewrite bool_decide_eq_true_2; [reflexivity|]. set_solver.
Qed.

Lemma generate_next_dataset_None path_ds dataset_id fs :
  (forall id, 0 <= id < 100 -> path_exists fs (get_dataset_path path_ds id) = true) ->
  generate_next_dataset path_ds dataset_id fs = (dataset_id, None).
Proof.
  intros H. unfold generate_next_dataset.
  rewrite scan_datasets_None; [reflexivity|].
  intros id Hid. apply H. apply In_range in Hid. lia.
Qed.

(** What follows in [__init__]: [exists(None)] raises the [TypeError]
    of the standard library, before any directory is made. *)
Lemma resolve_dataset_exhausted path_ds dataset_id fs :
  dataset_id < 0 ->
  (forall id, 0 <= id < 100 -> path_exists fs (get_dataset_path path_ds id) = true) ->
  resolve_dataset path_ds dataset_id fs = (Raise TypeError, fs).
Proof.
  intros Hneg H. unfold resolve_dataset.
  destruct (Z.ltb_spec dataset_id 0); [|lia].
  rewrite (generate_next_dataset_None path_ds dataset_id fs); auto.
Qed.

Lemma resolve_dataset_auto path_ds dataset_id fs id path fs' :
  dataset_id < 0 ->
  resolve_dataset path_ds dataset_id fs = (Ok (id, path), fs') ->
  0 <= id < 100 /\ path = get_dataset_path path_ds id /\
  path_exists fs path = false /\ fs' = makedirs path fs.
Proof.
  intros Hneg. unfold resolve_dataset, generate_next_dataset.
  destruct (Z.ltb_spec dataset_id 0); [|lia].
  destruct (scan_datasets path_ds fs (range 100)) as [[i p]|] eqn:Hscan; [|discriminate].
  apply scan_datasets_Some in Hscan as (Hin & -> & Hfree).
  rewrite Hfree. simpl. intros [= <- <- <-].
  apply In_range in Hin. repeat split; auto; lia.
Qed.

Lemma resolve_dataset_explicit path_ds dataset_id fs :
  0 <= dataset_id ->
  let path := get_dataset_path path_ds dataset_id in
  resolve_dataset path_ds dataset_id fs =
    (Ok (dataset_id, path), if path_exists fs path then fs else makedirs path fs).
Proof.
  intros Hpos. unfold resolve_dataset.
  destruct (Z.ltb_spec dataset_id 0); [lia|].
  simpl. destruct (path_exists fs _); reflexivity.
Qed.

Section Identity.

Context {L : Type} {LL : Learner L}.

Lemma init_Ok path_ds dataset_id path_plots fs0 (st : State L) fs1 :
  init path_ds dataset_id path_plots fs0 = (Ok st, fs1) ->
  resolve_dataset path_ds dataset_id fs0 = (Ok (self_id st, dataset_path st), fs1) /\
  fs st = fs1 /\ record_demo_id st = 0 /\ record_goal_id st = 0 /\
  sequence st = JArr [] /\ trace st = [].
Proof.
  unfold init.
  destruct (resolve_dataset path_ds dataset_id fs0) as [[[id path]|e] fs'];
    [|discriminate].
  destruct (L_init _); [|discriminate].
  intros [= <- <-]. simpl. auto 10.
Qed.

(** C7, as the code has it.  When construction is asked for with a
    negative id and every id of the scan range [0..99] already has a
    path: [generate_next_dataset] ends its loop without a [return], so
    its value is [None] and [self.id] keeps the negative id; and
    construction does not go through silently: [exists(None)] on line
    34 raises [TypeError], which leaves [__init__] before any directory
    is made and before the constructor of the superclass is called. *)
Theorem construction_exhausted path_ds dataset_id path_plots fs :
  dataset_id < 0 ->
  (forall id, 0 <= id < 100 -> path_exists fs (get_dataset_path path_ds id) = true) ->
  generate_next_dataset path_ds dataset_id fs = (dataset_id, None) /\
  resolve_dataset path_ds dataset_id fs = (Raise TypeError, fs) /\
  init path_ds dataset_id path_plots fs = (Raise TypeError, fs).
Proof.
  intros Hneg Htaken.
  pose proof (resolve_dataset_exhausted path_ds dataset_id fs Hneg Htaken) as Hres.
  repeat apply conj.
  - now apply generate_next_dataset_None.
  - exact Hres.
  - unfold init. now rewrite Hres.
Qed.

(** C8: two recorders built one after the other on the same datasets
    folder, both with a negative id: the first construction leaves its
    dataset directory on disk, the scan of the second finds that path
    taken, and the second never gets the id of the first. *)
Theorem auto_id_distinct path_ds d1 d2 plots1 plots2 fs0 (st1 st2 : State L) fs1 fs2 :
  d1 < 0 -> d2 < 0 ->
  init path_ds d1 plots1 fs0 = (Ok st1, fs1) ->
  init path_ds d2 plots2 fs1 = (Ok st2, fs2) ->
  path_exists fs1 (dataset_path st1) = true /\
  path_exists fs1 (dataset_path st2) = false /\
  self_id st1 <> self_id st2.
Proof.
  intros H1 H2 I1 I2.
  apply init_Ok in I1 as (R1 & _). apply init_Ok in I2 as (R2 & _).
  apply resolve_dataset_auto in R1 as (_ & P1 & _ & F1); [|assumption].
  apply resolve_dataset_auto in R2 as (_ & P2 & E2 & _); [|assumption].
  assert (E1 : path_exists fs1 (dataset_path st1) = true)
    by (rewrite F1; apply path_exists_makedirs).
  repeat split; auto.
  intros Heq. rewrite P1, Heq, <- P2, E2 in E1. discriminate.
Qed.

End Identity.

(** C9: for an explicit id [d >= 0] the resolved path is
    [get_dataset_path d], a function of the datasets folder and [d]
    alone: the same on any file system, with or without data at that
    path, and the same again when the logic is run a second time on the
    file system the first run left. *)
Theorem explicit_id_path_deterministic path_ds d fs fs' :
  0 <= d ->
  fst (resolve_dataset path_ds d fs) = Ok (d, get_dataset_path path_ds d) /\
  fst (resolve_dataset path_ds d fs') = fst (resolve_dataset path_ds d fs) /\
  fst (resolve_dataset path_ds d (snd (resolve_dataset path_ds d fs)))
    = fst (resolve_dataset path_ds d fs).
Proof.
  intros Hd. rewrite !resolve_dataset_explicit by assumption. auto.
Qed.

(** ** Witnesses for the dataset identity *)

Lemma full_fs_taken id :
  0 <= id < 100 -> path_exists Toy.full_fs (get_dataset_path "ds" id) = true.
Proof.
  intros Hid.
  assert (H : forallb (fun i => path_exists Toy.full_fs (get_dataset_path "ds" i)) (range 100) = true)
    by (vm_compute; reflexivity).
  rewrite forallb_forall in H. apply H. apply In_range. lia.
Qed.

(** C7 as stated fails: with all of [dataset_0] .. [dataset_99] on
    disk, construction with the id [-1] raises. *)
Lemma construction_exhausted_raises :
  init (L := Toy.T) "ds" (-1) "/tmp/plots" Toy.full_fs = (Raise TypeError, Toy.full_fs).
Proof. vm_compute. reflexivity. Qed.

Lemma construction_exhausted_witness :
  generate_next_dataset "ds" (-1) Toy.full_fs = (-1, None) /\
  resolve_dataset "ds" (-1) Toy.full_fs = (Raise TypeError, Toy.full_fs) /\
  init (L := Toy.T) "ds" (-1) "/tmp/plots" Toy.full_fs = (Raise TypeError, Toy.full_fs).
Proof.
  apply (construction_exhausted (L := Toy.T) "ds" (-1) "/tmp/plots" Toy.full_fs).
  - lia.
  - exact full_fs_taken.
Defined.

Lemma explicit_id_path_deterministic_witness :
  fst (resolve_dataset "ds" 3 Toy.empty_fs) = Ok (3, "ds/dataset_3").
Proof.
  apply (explicit_id_path_deterministic "ds" 3 Toy.empty_fs Toy.full_fs). lia.
Defined.

(** ** Paths *)

Lemma list_ascii_app s t :
  list_ascii_of_string (s +:+ t) = (list_ascii_of_string s ++ list_ascii_of_string t)%list.
Proof. induction s as [|c s IH]; simpl; [reflexivity|]. now rewrite IH. Qed.

Lemma string_app_inj_r s1 s2 t : s1 +:+ t = s2 +:+ t -> s1 = s2.
Proof.
  intros H. apply (f_equal list_ascii_of_string) in H.
  rewrite !list_ascii_app in H. apply app_inv_tail in H.
  rewrite <- (string_of_list_ascii_of_string s1), <- (string_of_list_ascii_of_string s2).
  now rewrite H.
Qed.

Lemma join_inj path a b :
  startswith_sep a = false -> startswith_sep b = false ->
  join path a = join path b -> a = b.
Proof.
  unfold join. intros -> ->.
  destruct (String.eqb path "" || endswith_sep path); intros H.
  - now apply (inj (String.app path)) in H.
  - apply (inj (String.app path)) in H. now apply (inj (String.app "/")) in H.
Qed.

Lemma payload_name_sep k i : startswith_sep (payload_name k i) = false.
Proof. destruct k; reflexivity. Qed.

Lemma payload_name_inj k i k' i' :
  payload_name k i = payload_name k' i' -> k = k' /\ i = i'.
Proof.
  destruct k, k'; simpl; unfold demo_name, path_name, cart_goal_name, joint_goal_name;
    intros H; try (simpl in H; discriminate H); split; try reflexivity.
  all: match type of H with ?pre +:+ _ = _ => apply (inj (String.app pre)) in H end.
  all: apply string_app_inj_r in H; now apply (inj pretty) in H.
Qed.

Lemma payload_file_inj path k i k' i' :
  payload_file path k i = payload_file path k' i' -> k = k' /\ i = i'.
Proof.
  intros H. apply join_inj in H; auto using payload_name_sep.
  now apply payload_name_inj.
Qed.

Lemma sequence_file_not_payload path k i : sequence_file path <> payload_file path k i.
Proof.
  intros H. apply join_inj in H; auto using payload_name_sep.
  destruct k; discriminate H.
Qed.

(** ** The methods, run *)

Ltac run :=
  unfold bind, get, modify, ret, raise, lift_res, dump, load, sequence_append,
    super_add_demonstration, super_set_goal, super_generate_trajectory, super_clear,
    payload_file, sequence_file, payload_name, log, set_fs, set_learner,
    set_sequence, set_record_demo_id, set_record_goal_id; simpl.

Section Runs.

Context {L : Type} {LL : Learner L}.

Implicit Types st : State L.

Lemma add_demonstration_run d e st :
  add_demonstration d e st =
  let path := dataset_path st in
  let i := record_demo_id st in
  let fs' := write_file (payload_file path KPath i) e
               (write_file (payload_file path KDemo i) d (fs st)) in
  let tr := trace st ++ [OWrite (payload_file path KDemo i) d;
                         OWrite (payload_file path KPath i) e;
                         OAddDemonstration d e None] in
  match L_add_demonstration d e None (learner st) with
  | (l, Raise ex) =>
      (Raise ex, mkState fs' tr (self_id st) path i (record_goal_id st) (sequence st) l)
  | (l, Ok k) =>
      match sequence st with
      | JArr items =>
          (Ok k, mkState fs' tr (self_id st) path (i + 1) (record_goal_id st)
                   (JArr (items ++ [demo_event k])) l)
      | _ =>
          (Raise AttributeError,
           mkState fs' tr (self_id st) path i (record_goal_id st) (sequence st) l)
      end
  end.
Proof.
  unfold add_demonstration. run.
  destruct (L_add_demonstration d e None (learner st)) as [l [k|ex]]; simpl;
    [destruct (sequence st); simpl|]; unfold log; simpl;
    rewrite <- ?app_assoc; reflexivity.
Qed.

Lemma set_goal_run x j st :
  set_goal x j st =
  let path := dataset_path st in
  let i := record_goal_id st in
  let cart := payload_file path KCart i in
  let joint := payload_file path KJoint i in
  match L_set_goal x j None (learner st) with
  | (l, Raise ex) =>
      (Raise ex, mkState (fs st) (trace st ++ [OSetGoal x j None]) (self_id st) path
                   (record_demo_id st) i (sequence st) l)
  | (l, Ok b) =>
      let fs' := if is_none j then write_file cart x (fs st)
                 else write_file joint j (write_file cart x (fs st)) in
      let tr := trace st ++ OSetGoal x j None :: OWrite cart x ::
                  (if is_none j then [] else [OWrite joint j]) in
      match sequence st with
      | JArr items =>
          (Ok b, mkState fs' tr (self_id st) path (record_demo_id st) (i + 1)
                   (JArr (items ++ [goal_event (L_goal_id l) (L_goal_log l)])) l)
      | _ =>
          (Raise AttributeError,
           mkState fs' tr (self_id st) path (record_demo_id st) i (sequence st) l)
      end
  end.
Proof.
  unfold set_goal. run.
  destruct (L_set_goal x j None (learner st)) as [l [b|ex]]; simpl; [|reflexivity].
  destruct (is_none j); run; destruct (sequence st); simpl; unfold log; simpl;
    rewrite <- ?app_assoc; reflexivity.
Qed.

Lemma close_run st :
  close st =
  let file := sequence_file (dataset_path st) in
  let '(l, r) := L_clear (learner st) in
  (r, mkState (write_file file (sequence st) (fs st))
        (trace st ++ [OWrite file (sequence st); OClear])
        (self_id st) (dataset_path st) 0 0 (sequence st) l).
Proof.
  unfold close. run.
  destruct (L_clear (learner st)) as [l r]; unfold log; simpl.
  rewrite <- ?app_assoc. reflexivity.
Qed.

Lemma play_next_demo_run r st d e :
  let path := dataset_path st in
  let i := record_demo_id st in
  files (fs st) !! payload_file path KDemo i = Some d ->
  files (fs st) !! payload_file path KPath i = Some e ->
  _play_next_demo (JNum r) st =
  let t := promp_target (L_num_primitives (learner st)) r in
  let '(l, res) := L_add_demonstration d e (Some t) (learner st) in
  (res, mkState (fs st)
          (trace st ++ [ORead (payload_file path KDemo i);
                        ORead (payload_file path KPath i);
                        OAddDemonstration d e (Some t)])
          (self_id st) path (i + 1) (record_goal_id st) (sequence st) l).
Proof.
  intros path i Hd He. unfold _play_next_demo. run.
  unfold payload_file in Hd, He. simpl in Hd, He. subst path i.
  rewrite Hd. simpl. rewrite He. simpl.
  destruct (L_add_demonstration d e _ (learner st)) as [l res]; simpl.
  rewrite <- ?app_assoc. reflexivity.
Qed.

Lemma play_next_goal_run refining st x :
  let path := dataset_path st in
  let i := record_goal_id st in
  let cart := payload_file path KCart i in
  let joint := payload_file path KJoint i in
  files (fs st) !! cart = Some x ->
  _play_next_goal refining st =
  let j := default JNull (files (fs st) !! joint) in
  let reads := ORead cart :: (if isfile (fs st) joint then [ORead joint] else []) in
  let '(l, res) := L_set_goal x j (Some refining) (learner st) in
  let tr := trace st ++ reads ++ [OSetGoal x j (Some refining)] in
  match res with
  | Raise ex =>
      (Raise ex, mkState (fs st) tr (self_id st) path (record_demo_id st) (i + 1)
                   (sequence st) l)
  | Ok false =>
      (Ok (false, JNull),
       mkState (fs st) tr (self_id st) path (record_demo_id st) (i + 1) (sequence st) l)
  | Ok true =>
      let '(l2, tres) := L_generate_trajectory l in
      (match tres with Ok t => Ok (true, t) | Raise ex => Raise ex end,
       mkState (fs st) (tr ++ [OGenerateTrajectory]) (self_id st) path
         (record_demo_id st) (i + 1) (sequence st) l2)
  end.
Proof.
  intros path i cart joint Hx. unfold _play_next_goal. run.
  unfold cart, joint, payload_file in *. simpl in *. subst path i.
  rewrite Hx. simpl. unfold isfile.
  destruct (files (fs st) !! join (dataset_path st) (joint_goal_name (record_goal_id st)))
    as [j|] eqn:Hj; simpl.
  - rewrite ?bool_decide_eq_true_2 by eauto. simpl. rewrite ?Hj. simpl.
    destruct (L_set_goal x j _ (learner st)) as [l [[|]|ex]]; simpl;
      [destruct (L_generate_trajectory l) as [l2 [t|ex]]; simpl|..];
      rewrite <- ?app_assoc; reflexivity.
  - rewrite ?bool_decide_eq_false_2 by (intros [? ?]; discriminate). simpl.
    destruct (L_set_goal x JNull _ (learner st)) as [l [[|]|ex]]; simpl;
      [destruct (L_generate_trajectory l) as [l2 [t|ex]]; simpl|..];
      rewrite <- ?app_assoc; reflexivity.
Qed.

(** What a replay step leaves alone, whatever was read and whatever
    the superclass answered. *)
Lemma play_next_demo_Ok r st t st' :
  _play_next_demo r st = (Ok t, st') ->
  record_demo_id st' = record_demo_id st + 1 /\
  record_goal_id st' = record_goal_id st /\
  dataset_path st' = dataset_path st /\ fs st' = fs st /\ sequence st' = sequence st.
Proof.
  unfold _play_next_demo. run.
  repeat (case_match; simplify_eq/=).
  all: intros Hrun; simplify_eq/=; auto.
Qed.

Lemma play_next_goal_Ok refining st r st' :
  _play_next_goal refining st = (Ok r, st') ->
  record_demo_id st' = record_demo_id st /\
  record_goal_id st' = record_goal_id st + 1 /\
  dataset_path st' = dataset_path st /\ fs st' = fs st /\ sequence st' = sequence st.
Proof.
  unfold _play_next_goal. run.
  repeat (case_match; simplify_eq/=).
  all: intros Hrun; simplify_eq/=; auto.
Qed.

(** ** Recording *)

Lemma lookup_write_file_ne p q v (f : FS) :
  p <> q -> files (write_file p v f) !! q = files f !! q.
Proof. intros Hne. unfold write_file. simpl. now apply lookup_insert_ne. Qed.

Lemma lookup_write_file_eq p v (f : FS) : files (write_file p v f) !! p = Some v.
Proof. unfold write_file. simpl. apply lookup_insert_eq. Qed.


(** The same for [add_demonstration]. *)
Lemma add_demonstration_effect d e st l k items :
  L_add_demonstration d e None (learner st) = (l, Ok k) ->
  sequence st = JArr items ->
  let path := dataset_path st in
  let i := record_demo_id st in
  add_demonstration d e st =
    (Ok k,
     mkState
       (write_file (payload_file path KPath i) e
          (write_file (payload_file path KDemo i) d (fs st)))
       (trace st ++ [OWrite (payload_file path KDemo i) d;
                     OWrite (payload_file path KPath i) e;
                     OAddDemonstration d e None])
       (self_id st) path (i + 1) (record_goal_id st)
       (JArr (items ++ [demo_event k])) l).
Proof.
  intros HL Hseq. rewrite add_demonstration_run. simpl. rewrite HL, Hseq. reflexivity.
Qed.

(** C6, as the code has it.  When the superclass raises [ex]:
    [add_demonstration] raises the same [ex], and by then both payload
    files have been written, before the superclass was called;
    [set_goal] raises the same [ex] too, but it calls the superclass
    before it writes, so by then no file has been written.  In both the
    sequence and the counters are as before.  A goal that the
    superclass turns down by returning [False] is persisted all the
    same, and [False] is returned. *)
Theorem learner_failure_propagates st :
  (forall d e l ex,
     L_add_demonstration d e None (learner st) = (l, Raise ex) ->
     let path := dataset_path st in
     let i := record_demo_id st in
     add_demonstration d e st =
       (Raise ex,
        mkState
          (write_file (payload_file path KPath i) e
             (write_file (payload_file path KDemo i) d (fs st)))
          (trace st ++ [OWrite (payload_file path KDemo i) d;
                        OWrite (payload_file path KPath i) e;
                        OAddDemonstration d e None])
          (self_id st) path i (record_goal_id st) (sequence st) l)) /\
  (forall x j l ex,
     L_set_goal x j None (learner st) = (l, Raise ex) ->
     set_goal x j st =
       (Raise ex,
        mkState (fs st) (trace st ++ [OSetGoal x j None])
          (self_id st) (dataset_path st) (record_demo_id st) (record_goal_id st)
          (sequence st) l)) /\
  (forall x j l items,
     L_set_goal x j None (learner st) = (l, Ok false) ->
     sequence st = JArr items ->
     fst (set_goal x j st) = Ok false /\
     files (fs (snd (set_goal x j st)))
       !! payload_file (dataset_path st) KCart (record_goal_id st) = Some x).
Proof.
  split; [|split].
  - intros d e l ex HL. rewrite add_demonstration_run. simpl. rewrite HL. reflexivity.
  - intros x j l ex HL. rewrite set_goal_run. simpl. rewrite HL. reflexivity.
  - intros x j l items HL Hseq. rewrite set_goal_run. simpl. rewrite HL, Hseq. simpl.
    split; [reflexivity|].
    destruct (is_none j); [apply lookup_write_file_eq|].
    rewrite lookup_write_file_ne; [apply lookup_write_file_eq|].
    intros Heq. apply payload_file_inj in Heq as [? _]. discriminate.
Qed.

(** ** [close] *)


(** C10: [close] leaves [self.sequence] as it is while it resets the
    counters, so that the next [add_demonstration] or [set_goal] on the
    same instance appends its event after all the earlier ones and
    writes its payload files under index [0]. *)
Theorem close_keeps_sequence st items :
  sequence st = JArr items ->
  let st' := snd (close st) in
  let path := dataset_path st in
  sequence st' = JArr items /\
  record_demo_id st' = 0 /\ record_goal_id st' = 0 /\
  (forall d e l k,
     L_add_demonstration d e None (learner st') = (l, Ok k) ->
     let st'' := snd (add_demonstration d e st') in
     sequence st'' = JArr (items ++ [demo_event k]) /\
     files (fs st'') !! payload_file path KDemo 0 = Some d /\
     files (fs st'') !! payload_file path KPath 0 = Some e /\
     record_demo_id st'' = 1) /\
  (forall x j l b,
     L_set_goal x j None (learner st') = (l, Ok b) ->
     let st'' := snd (set_goal x j st') in
     sequence st'' = JArr (items ++ [goal_event (L_goal_id l) (L_goal_log l)]) /\
     files (fs st'') !! payload_file path KCart 0 = Some x /\
     (is_none j = false -> files (fs st'') !! payload_file path KJoint 0 = Some j) /\
     record_goal_id st'' = 1).
Proof.
  intros Hseq st' path. subst st' path. rewrite close_run.
  destruct (L_clear (learner st)) as [l0 r0]. simpl.
  repeat split; auto.
  - rewrite (add_demonstration_effect d e _ l k items) by assumption. reflexivity.
  - rewrite (add_demonstration_effect d e _ l k items) by assumption. simpl.
    rewrite lookup_insert_ne; [apply lookup_insert_eq|].
    intros Heq. apply (payload_file_inj _ KPath 0 KDemo 0) in Heq as [? _]. discriminate.
  - rewrite (add_demonstration_effect d e _ l k items) by assumption. simpl.
    apply lookup_insert_eq.
  - rewrite (add_demonstration_effect d e _ l k items) by assumption. reflexivity.
  - rewrite set_goal_run. simpl in *. rewrite H, Hseq. reflexivity.
  - rewrite set_goal_run. simpl in *. rewrite H, Hseq.
    destruct (is_none j); simpl; [apply lookup_insert_eq|].
    rewrite lookup_insert_ne; [apply lookup_insert_eq|].
    intros Heq. apply (payload_file_inj _ KJoint 0 KCart 0) in Heq as [? _]. discriminate.
  - intros Hj. rewrite set_goal_run. simpl in *. rewrite H, Hseq, Hj. simpl.
    apply lookup_insert_eq.
  - rewrite set_goal_run. simpl in *. rewrite H, Hseq. reflexivity.
Qed.

(** [self.sequence] is a list from [__init__] on ([init_Ok]) and stays
    one through the recording calls and [close], however they end. *)
Lemma sequence_stays_list st items :
  sequence st = JArr items ->
  (forall d e, exists items', sequence (snd (add_demonstration d e st)) = JArr items') /\
  (forall x j, exists items', sequence (snd (set_goal x j st)) = JArr items') /\
  sequence (snd (close st)) = JArr items.
Proof.
  intros Hseq. repeat apply conj.
  - intros d e. rewrite add_demonstration_run. simpl. rewrite Hseq.
    destruct (L_add_demonstration d e None (learner st)) as [l [k|ex]]; simpl; eauto.
  - intros x j. rewrite set_goal_run. simpl. rewrite Hseq.
    destruct (L_set_goal x j None (learner st)) as [l [b|ex]]; simpl; eauto.
  - rewrite close_run. destruct (L_clear (learner st)). simpl. assumption.
Qed.

(** ** Replay of one demonstration *)

Lemma promp_target_spec np r :
  let t := promp_target np r in
  (Z.of_nat np <= r -> t = -1) /\ (r < Z.of_nat np -> t = r) /\ t < Z.of_nat np.
Proof.
  unfold promp_target. simpl.
  destruct (Z.leb_spec (Z.of_nat np) r); repeat split; intros; lia.
Qed.

(** C2, as the code has it.  [_play_next_demo(receiving_promp)] with
    the two payload files of the current demo counter on disk: exactly
    one call goes to the superclass, with the two payloads that were
    read and the target [t]; [t] is [-1] when
    [receiving_promp >= num_primitives] and [receiving_promp] itself
    otherwise; so [t] is never an index at or above [num_primitives],
    and for [receiving_promp >= -1] it is [-1] or an index of an
    existing primitive; line 98 has no lower bound, so a
    [receiving_promp] below [-1] is forwarded as it is, a forced index
    that is neither [-1] nor in range.  What the superclass answers is
    what is returned. *)
Theorem play_next_demo_target st receiving_promp d e :
  let path := dataset_path st in
  let i := record_demo_id st in
  let np := Z.of_nat (L_num_primitives (learner st)) in
  files (fs st) !! payload_file path KDemo i = Some d ->
  files (fs st) !! payload_file path KPath i = Some e ->
  exists t,
    trace (snd (_play_next_demo (JNum receiving_promp) st)) =
      trace st ++ [ORead (payload_file path KDemo i);
                   ORead (payload_file path KPath i);
                   OAddDemonstration d e (Some t)] /\
    fst (_play_next_demo (JNum receiving_promp) st) =
      snd (L_add_demonstration d e (Some t) (learner st)) /\
    (np <= receiving_promp -> t = -1) /\
    (receiving_promp < np -> t = receiving_promp) /\
    t < np /\
    (-1 <= receiving_promp -> t = -1 \/ 0 <= t < np) /\
    (receiving_promp < -1 -> t = receiving_promp /\ t <> -1 /\ ~ 0 <= t < np).
Proof.
  intros path i np Hd He.
  exists (promp_target (L_num_primitives (learner st)) receiving_promp).
  rewrite (play_next_demo_run receiving_promp st d e Hd He). simpl.
  destruct (L_add_demonstration d e _ (learner st)) as [l res]. simpl.
  destruct (promp_target_spec (L_num_primitives (learner st)) receiving_promp)
    as (Hge & Hlt & Hbound).
  repeat apply conj; auto; intros Hr; subst np.
  - destruct (Z.le_gt_cases (Z.of_nat (L_num_primitives (learner st))) receiving_promp);
      [left; auto|]. rewrite Hlt by lia. lia.
  - rewrite Hlt by lia. lia.
Qed.

(** ** Counters *)

Lemma add_demonstration_Ok d e st k st' :
  add_demonstration d e st = (Ok k, st') ->
  exists l items,
    L_add_demonstration d e None (learner st) = (l, Ok k) /\
    sequence st = JArr items /\
    sequence st' = JArr (items ++ [demo_event k]) /\
    learner st' = l /\
    dataset_path st' = dataset_path st /\
    record_demo_id st' = record_demo_id st + 1 /\
    record_goal_id st' = record_goal_id st /\
    fs st' = write_file (payload_file (dataset_path st) KPath (record_demo_id st)) e
               (write_file (payload_file (dataset_path st) KDemo (record_demo_id st)) d (fs st)).
Proof.
  rewrite add_demonstration_run. simpl.
  destruct (L_add_demonstration d e None (learner st)) as [l [k'|ex]]; [|discriminate].
  destruct (sequence st) as [| | | |items|]; try discriminate.
  intros Hrun. simplify_eq/=. exists l, items. auto 10.
Qed.

Lemma set_goal_Ok x j st b st' :
  set_goal x j st = (Ok b, st') ->
  exists l items,
    L_set_goal x j None (learner st) = (l, Ok b) /\
    sequence st = JArr items /\
    sequence st' = JArr (items ++ [goal_event (L_goal_id l) (L_goal_log l)]) /\
    learner st' = l /\
    dataset_path st' = dataset_path st /\
    record_demo_id st' = record_demo_id st /\
    record_goal_id st' = record_goal_id st + 1 /\
    fs st' = (if is_none j
              then write_file (payload_file (dataset_path st) KCart (record_goal_id st)) x (fs st)
              else write_file (payload_file (dataset_path st) KJoint (record_goal_id st)) j
                     (write_file (payload_file (dataset_path st) KCart (record_goal_id st)) x
                        (fs st))).
Proof.
  rewrite set_goal_run. simpl.
  destruct (L_set_goal x j None (learner st)) as [l [b'|ex]]; [|discriminate].
  destruct (sequence st) as [| | | |items|]; try discriminate.
  intros Hrun. simplify_eq/=. exists l, items. auto 10.
Qed.

Lemma record_cons c calls st outs st' :
  record (c :: calls) st = (Ok outs, st') ->
  exists o st1 outs',
    record_one c st = (Ok o, st1) /\ record calls st1 = (Ok outs', st') /\
    outs = o :: outs'.
Proof.
  simpl. unfold bind at 1.
  destruct (record_one c st) as [[o|ex] st1]; [|discriminate].
  unfold bind at 1.
  destruct (record calls st1) as [[outs'|ex] st2] eqn:Hrest; [|discriminate].
  unfold ret. intros Hrun. inversion Hrun; subst. exists o, st1, outs'. auto.
Qed.

Lemma record_one_Ok c st o st1 :
  record_one c st = (Ok o, st1) ->
  match c with
  | CallDemo d e => exists k, o = AddedTo k /\ add_demonstration d e st = (Ok k, st1)
  | CallGoal x j => exists b, o = IsReached b /\ set_goal x j st = (Ok b, st1)
  end.
Proof.
  destruct c as [d e|x j]; simpl; unfold bind, ret.
  - destruct (add_demonstration d e st) as [[k|ex] st']; [|discriminate].
    intros Hrun. simplify_eq. eauto.
  - destruct (set_goal x j st) as [[b|ex] st']; [|discriminate].
    intros Hrun. simplify_eq. eauto.
Qed.

Lemma record_counters calls st outs st' :
  record calls st = (Ok outs, st') ->
  record_demo_id st' = record_demo_id st + Z.of_nat (length (List.filter is_demo calls)) /\
  record_goal_id st' = record_goal_id st + Z.of_nat (length (List.filter is_goal calls)) /\
  dataset_path st' = dataset_path st.
Proof.
  revert st outs. induction calls as [|c calls IH]; intros st outs.
  - simpl. unfold ret. intros Hrun. simplify_eq. simpl. repeat split; lia.
  - intros Hrun. apply record_cons in Hrun as (o & st1 & outs' & H1 & Hrest & ->).
    apply IH in Hrest as (Hd & Hg & Hp). apply record_one_Ok in H1.
    destruct c as [d e|x j].
    + destruct H1 as (k & -> & H1).
      apply add_demonstration_Ok in H1 as (l & items & _ & _ & _ & _ & Hp1 & Hd1 & Hg1 & _).
      simpl. rewrite Hd, Hg, Hp, Hd1, Hg1, Hp1. repeat split; lia.
    + destruct H1 as (b & -> & H1).
      apply set_goal_Ok in H1 as (l & items & _ & _ & _ & _ & Hp1 & Hd1 & Hg1 & _).
      simpl. rewrite Hd, Hg, Hp, Hd1, Hg1, Hp1. repeat split; lia.
Qed.

Lemma str_eq_demo_goal ty : str_eq ty "demo" = true -> str_eq ty "goal" = false.
Proof.
  destruct ty; simpl; try discriminate.
  intros H. apply String.eqb_eq in H. subst. reflexivity.
Qed.

Lemma play_loop_counters keep_targets refining events :
  forall timeline st timeline' st',
  play_loop keep_targets refining events timeline st = (Ok timeline', st') ->
  record_demo_id st' =
    record_demo_id st + Z.of_nat (length (List.filter (event_is "demo") events)) /\
  record_goal_id st' =
    record_goal_id st + Z.of_nat (length (List.filter (event_is "goal") events)).
Proof.
  induction events as [|event events IH]; intros timeline st timeline' st'.
  - simpl. unfold ret. intros Hrun. simplify_eq. simpl. lia.
  - assert (Hev : forall kind, event_is kind event =
              match getitem event "type" with Ok ty => str_eq ty kind | Raise _ => false end)
      by reflexivity.
    simpl. rewrite !Hev. clear Hev. unfold bind at 1. unfold lift_res at 1.
    destruct (getitem event "type") as [ty|ex]; [|discriminate].
    destruct (str_eq ty "demo") eqn:Edemo.
    + rewrite (str_eq_demo_goal ty Edemo).
      unfold bind at 1.
      destruct ((if keep_targets then lift_res (getitem event "added_to")
                 else ret (JNum (-1))) st) as [[receiving|ex] st0] eqn:E0;
        [|discriminate].
      assert (st0 = st) as ->.
      { destruct keep_targets; unfold lift_res, ret in E0; congruence. }
      unfold bind at 1.
      destruct (_play_next_demo receiving st) as [[target|ex] st1] eqn:E1;
        [|discriminate].
      apply play_next_demo_Ok in E1 as (Hd & Hg & _).
      intros Hrun. apply IH in Hrun as (Hd' & Hg').
      simpl. rewrite Hd', Hg', Hd, Hg. lia.
    + destruct (str_eq ty "goal") eqn:Egoal.
      * unfold bind at 1.
        destruct (_play_next_goal refining st) as [[r|ex] st1] eqn:E1; [|discriminate].
        apply play_next_goal_Ok in E1 as (Hd & Hg & _).
        unfold bind at 1, get at 1.
        intros Hrun. apply IH in Hrun as (Hd' & Hg').
        simpl. rewrite Hd', Hg', Hd, Hg. lia.
      * intros Hrun. apply IH in Hrun as (Hd' & Hg'). simpl. lia.
Qed.

Lemma play_unfold keep_targets refining st manifest :
  files (fs st) !! sequence_file (dataset_path st) = Some manifest ->
  play keep_targets refining st =
  let st1 := mkState (fs st) (trace st ++ [ORead (sequence_file (dataset_path st))])
               (self_id st) (dataset_path st) 0 0 manifest (learner st) in
  match iterate manifest with
  | Ok events => play_loop keep_targets refining events [] st1
  | Raise ex => (Raise ex, st1)
  end.
Proof.
  intros Hm. unfold play. run. unfold sequence_file in Hm. rewrite Hm. simpl.
  destruct (iterate manifest); reflexivity.
Qed.

(** The events a session appends are as many demo events as it had
    demonstrations and as many goal events as it had goals. *)
Lemma record_event_counts calls :
  forall st outs st' items,
  record calls st = (Ok outs, st') ->
  sequence st = JArr items ->
  exists events,
    sequence st' = JArr (items ++ events) /\
    length (List.filter (event_is "demo") events) = length (List.filter is_demo calls) /\
    length (List.filter (event_is "goal") events) = length (List.filter is_goal calls).
Proof.
  induction calls as [|c calls IH]; intros st outs st' items Hrun Hseq.
  - simpl in Hrun. unfold ret in Hrun. simplify_eq.
    exists []. now rewrite app_nil_r.
  - apply record_cons in Hrun as (o & st1 & outs' & H1 & Hrest & ->).
    apply record_one_Ok in H1. destruct c as [d e|x j].
    + destruct H1 as (k & _ & H1).
      apply add_demonstration_Ok in H1 as (l & items0 & _ & Hseq0 & Hseq1 & _).
      rewrite Hseq in Hseq0. injection Hseq0 as <-.
      destruct (IH st1 outs' st' _ Hrest Hseq1) as (events & Hseq' & Hd & Hg).
      exists (demo_event k :: events). rewrite Hseq', <- app_assoc.
      split; [reflexivity|]. simpl. rewrite Hd, Hg. auto.
    + destruct H1 as (b & _ & H1).
      apply set_goal_Ok in H1 as (l & items0 & _ & Hseq0 & Hseq1 & _).
      rewrite Hseq in Hseq0. injection Hseq0 as <-.
      destruct (IH st1 outs' st' _ Hrest Hseq1) as (events & Hseq' & Hd & Hg).
      exists (goal_event (L_goal_id l) (L_goal_log l) :: events).
      rewrite Hseq', <- app_assoc.
      split; [reflexivity|]. simpl. rewrite Hd, Hg. auto.
Qed.

(** C3: (1) from counters at zero, as a fresh instance and an instance
    just closed have them, recording K demonstrations and M goals
    leaves [record_demo_id = K] and [record_goal_id = M]; (2) after
    [close], however it ends, both are [0]; (3) when [play] returns,
    they are the numbers of demo events and of goal events of the
    manifest it loaded, the events of a manifest that is a list being
    its items; (4) so after a session of K demonstrations and M goals
    from an empty sequence and a [close], when [play] returns, whatever
    its flags and the state of the superclass, they are K and M
    again. *)
Theorem counters_track_occurrences :
  (forall calls st outs st',
     record_demo_id st = 0 -> record_goal_id st = 0 ->
     record calls st = (Ok outs, st') ->
     record_demo_id st' = Z.of_nat (length (List.filter is_demo calls)) /\
     record_goal_id st' = Z.of_nat (length (List.filter is_goal calls))) /\
  (forall st,
     record_demo_id (snd (close st)) = 0 /\ record_goal_id (snd (close st)) = 0) /\
  (forall keep_targets refining st timeline st',
     play keep_targets refining st = (Ok timeline, st') ->
     exists manifest events,
       files (fs st) !! sequence_file (dataset_path st) = Some manifest /\
       iterate manifest = Ok events /\
       (forall items, manifest = JArr items -> events = items) /\
       record_demo_id st' = Z.of_nat (length (List.filter (event_is "demo") events)) /\
       record_goal_id st' = Z.of_nat (length (List.filter (event_is "goal") events))) /\
  (forall calls st outs st1 keep_targets refining l timeline st3,
     sequence st = JArr [] ->
     record calls st = (Ok outs, st1) ->
     play keep_targets refining (set_learner l (snd (close st1))) = (Ok timeline, st3) ->
     record_demo_id st3 = Z.of_nat (length (List.filter is_demo calls)) /\
     record_goal_id st3 = Z.of_nat (length (List.filter is_goal calls))).
Proof.
  split; [|split; [|split]].
  - intros calls st outs st' Hd Hg Hrun.
    apply record_counters in Hrun as (Hd' & Hg' & _). lia.
  - intros st. rewrite close_run. destruct (L_clear (learner st)). simpl. auto.
  - intros keep_targets refining st timeline st' Hrun.
    destruct (files (fs st) !! sequence_file (dataset_path st)) as [manifest|] eqn:Hm.
    + rewrite (play_unfold _ _ _ manifest Hm) in Hrun. simpl in Hrun.
      destruct (iterate manifest) as [events|ex] eqn:Hit; [|discriminate].
      apply play_loop_counters in Hrun as (Hd & Hg). simpl in Hd, Hg.
      exists manifest, events. repeat split; auto.
      intros items ->. simpl in Hit. congruence.
    + exfalso. revert Hrun. unfold play. run. unfold sequence_file in Hm.
      rewrite Hm. discriminate.
  - intros calls st outs st1 keep_targets refining l timeline st3 Hseq Hrec Hplay.
    destruct (record_event_counts calls st outs st1 [] Hrec Hseq)
      as (events & Hseq1 & Hd & Hg).
    simpl in Hseq1.
    rewrite close_run in Hplay. destruct (L_clear (learner st1)) as [lc rc].
    simpl in Hplay.
    rewrite (play_unfold _ _ _ (JArr events)) in Hplay.
    2:{ simpl. rewrite Hseq1. apply lookup_insert_eq. }
    simpl in Hplay.
    apply play_loop_counters in Hplay as (Hd' & Hg'). simpl in Hd', Hg'.
    rewrite Hd', Hg', Hd, Hg. auto.
Qed.

(** ** Replaying what was recorded *)

Ltac payload_ne :=
  let H := fresh "Hne" in
  intros H; apply payload_file_inj in H as [? ?]; simpl in *;
  first [discriminate | lia | congruence].

(** One recording call writes under the current counters only. *)
Lemma record_one_frame c st o st1 :
  record_one c st = (Ok o, st1) ->
  dataset_path st1 = dataset_path st /\
  (forall k, counter_of k st <= counter_of k st1) /\
  forall k i, i <> counter_of k st \/ counter_of k st1 = counter_of k st ->
    files (fs st1) !! payload_file (dataset_path st) k i =
    files (fs st) !! payload_file (dataset_path st) k i.
Proof.
  intros H1. apply record_one_Ok in H1. destruct c as [d e|x j].
  - destruct H1 as (k0 & _ & H1).
    apply add_demonstration_Ok in H1 as (l & items & _ & _ & _ & _ & Hp & Hd & Hg & Hfs).
    split; [assumption|]. split; [intros []; simpl; lia|].
    intros k i Hi. rewrite Hfs.
    rewrite !lookup_write_file_ne; [reflexivity|..]; destruct k; payload_ne.
  - destruct H1 as (b & _ & H1).
    apply set_goal_Ok in H1 as (l & items & _ & _ & _ & _ & Hp & Hd & Hg & Hfs).
    split; [assumption|]. split; [intros []; simpl; lia|].
    intros k i Hi. rewrite Hfs.
    destruct (is_none j);
      rewrite !lookup_write_file_ne; try reflexivity; destruct k; payload_ne.
Qed.

Lemma record_monotone calls st outs st' k :
  record calls st = (Ok outs, st') -> counter_of k st <= counter_of k st'.
Proof.
  intros Hrun. apply record_counters in Hrun as (Hd & Hg & _).
  destruct k; simpl; lia.
Qed.

(** A recording session writes the payload files numbered from the
    counters it starts with up to those it ends with, and no other. *)
Lemma record_frame calls :
  forall st outs st',
  record calls st = (Ok outs, st') ->
  forall k i, i < counter_of k st \/ counter_of k st' <= i ->
    files (fs st') !! payload_file (dataset_path st) k i =
    files (fs st) !! payload_file (dataset_path st) k i.
Proof.
  induction calls as [|c calls IH]; intros st outs st' Hrun k i Hi.
  - simpl in Hrun. unfold ret in Hrun. now simplify_eq.
  - apply record_cons in Hrun as (o & st1 & outs' & H1 & Hrest & ->).
    apply record_one_frame in H1 as (Hp & Hmono & Hstep).
    pose proof (record_monotone _ _ _ _ k Hrest) as Hmono'.
    specialize (Hmono k).
    rewrite <- Hp. rewrite (IH st1 outs' st' Hrest k i) by lia.
    rewrite Hp. apply Hstep. lia.
Qed.

Lemma play_loop_demo refining k events timeline st :
  play_loop true refining (demo_event k :: events) timeline st =
  match _play_next_demo (JNum k) st with
  | (Ok target, st1) =>
      play_loop true refining events (timeline ++ [demo_result target]) st1
  | (Raise ex, st1) => (Raise ex, st1)
  end.
Proof. reflexivity. Qed.

Lemma play_loop_goal keep_targets refining goal_id goal_log events timeline st :
  play_loop keep_targets refining (goal_event goal_id goal_log :: events) timeline st =
  match _play_next_goal refining st with
  | (Ok r, st1) =>
      play_loop keep_targets refining events
        (timeline ++ [goal_result (fst r) (L_goal_log (learner st1)) (snd r)]) st1
  | (Raise ex, st1) => (Raise ex, st1)
  end.
Proof. reflexivity. Qed.

Section Replay.

Hypothesis HR : Replayable L.

Lemma forced_like_chosen d e l l' k :
  L_add_demonstration d e None l = (l', Ok k) ->
  L_add_demonstration d e (Some (promp_target (L_num_primitives l) k)) l = (l', Ok k).
Proof.
  intros HL. unfold promp_target.
  destruct (Z.leb_spec (Z.of_nat (L_num_primitives l)) k).
  - now rewrite (choose_target L HR).
  - now apply (forced_target L HR).
Qed.

(** The events a session appends to the sequence, replayed with the
    recorded targets from the superclass state and the counters the
    session started with, against files that hold what the session
    wrote, give the outcomes of the session. *)
Lemma replay_recorded calls :
  forall st outs st' items,
  record calls st = (Ok outs, st') ->
  sequence st = JArr items ->
  (forall i, record_goal_id st <= i ->
     files (fs st) !! payload_file (dataset_path st) KJoint i = None) ->
  exists events,
    sequence st' = JArr (items ++ events) /\
    forall rp timeline,
      dataset_path rp = dataset_path st -> learner rp = learner st ->
      record_demo_id rp = record_demo_id st -> record_goal_id rp = record_goal_id st ->
      (forall k i, counter_of k st <= i ->
         files (fs rp) !! payload_file (dataset_path st) k i =
         files (fs st') !! payload_file (dataset_path st) k i) ->
      exists timeline' rp',
        play_loop true true events timeline rp = (Ok (timeline ++ timeline'), rp') /\
        map observe timeline' = map Some outs.
Proof.
  induction calls as [|c calls IH]; intros st outs st' items Hrun Hseq Hjoint.
  - simpl in Hrun. unfold ret in Hrun. simplify_eq.
    exists []. split; [now rewrite app_nil_r|].
    intros rp timeline _ _ _ _ _. exists [], rp. simpl. unfold ret.
    now rewrite app_nil_r.
  - apply record_cons in Hrun as (o & st1 & outs' & H1 & Hrest & ->).
    pose proof (record_frame _ _ _ _ Hrest) as Hframe.
    pose proof (fun k => record_monotone _ _ _ _ k Hrest) as Hmono.
    apply record_one_Ok in H1. destruct c as [d e|x j].
    + destruct H1 as (k & -> & H1).
      apply add_demonstration_Ok in H1
        as (l & items0 & HL & Hseq0 & Hseq1 & Hl1 & Hp1 & Hd1 & Hg1 & Hfs1).
      rewrite Hseq in Hseq0. injection Hseq0 as <-.
      rewrite Hp1 in Hframe.
      destruct (IH st1 outs' st' (items ++ [demo_event k]) Hrest Hseq1)
        as (events & Hseq' & Hreplay).
      { intros i Hi. rewrite Hp1, Hfs1.
        rewrite !lookup_write_file_ne; [apply Hjoint; lia|..]; payload_ne. }
      exists (demo_event k :: events). split.
      { rewrite Hseq', <- app_assoc. reflexivity. }
      intros rp timeline Hrp_path Hrp_l Hrp_d Hrp_g Hagree.
      assert (Hd : files (fs rp) !! payload_file (dataset_path rp) KDemo (record_demo_id rp)
                   = Some d).
      { rewrite Hrp_path, Hrp_d, Hagree by (simpl; lia).
        rewrite Hframe by (left; simpl; lia). rewrite Hfs1.
        rewrite lookup_write_file_ne by payload_ne. apply lookup_write_file_eq. }
      assert (He : files (fs rp) !! payload_file (dataset_path rp) KPath (record_demo_id rp)
                   = Some e).
      { rewrite Hrp_path, Hrp_d, Hagree by (simpl; lia).
        rewrite Hframe by (left; simpl; lia). rewrite Hfs1.
        apply lookup_write_file_eq. }
      rewrite play_loop_demo, (play_next_demo_run k rp d e Hd He). simpl.
      rewrite Hrp_l, (forced_like_chosen d e _ l k HL).
      match goal with
        | |- context [play_loop true true events ?tl ?rp1] =>
            destruct (Hreplay rp1 tl) as (timeline' & rp' & Hplay & Hobs)
        end; simpl; try congruence.
      { intros k0 i Hi. rewrite Hp1. apply Hagree.
        destruct k0; simpl in *; lia. }
      exists (demo_result k :: timeline'), rp'. split.
      * rewrite Hplay, <- app_assoc. reflexivity.
      * simpl. now rewrite Hobs.
    + destruct H1 as (b & -> & H1).
      apply set_goal_Ok in H1
        as (l & items0 & HL & Hseq0 & Hseq1 & Hl1 & Hp1 & Hd1 & Hg1 & Hfs1).
      rewrite Hseq in Hseq0. injection Hseq0 as <-.
      rewrite Hp1 in Hframe.
      destruct (IH st1 outs' st' _ Hrest Hseq1) as (events & Hseq' & Hreplay).
      { intros i Hi. rewrite Hp1, Hfs1.
        destruct (is_none j); rewrite !lookup_write_file_ne; try (apply Hjoint; lia);
          payload_ne. }
      exists (goal_event (L_goal_id l) (L_goal_log l) :: events). split.
      { rewrite Hseq', <- app_assoc. reflexivity. }
      intros rp timeline Hrp_path Hrp_l Hrp_d Hrp_g Hagree.
      assert (Hx : files (fs rp) !! payload_file (dataset_path rp) KCart (record_goal_id rp)
                   = Some x).
      { rewrite Hrp_path, Hrp_g, Hagree by (simpl; lia).
        rewrite Hframe by (left; simpl; lia). rewrite Hfs1.
        destruct (is_none j); [apply lookup_write_file_eq|].
        rewrite lookup_write_file_ne by payload_ne. apply lookup_write_file_eq. }
      assert (Hj : default JNull
                     (files (fs rp) !! payload_file (dataset_path rp) KJoint (record_goal_id rp))
                   = j).
      { rewrite Hrp_path, Hrp_g, Hagree by (simpl; lia).
        rewrite Hframe by (left; simpl; lia). rewrite Hfs1.
        destruct j; cbn [is_none]; rewrite ?lookup_write_file_eq; try reflexivity.
        rewrite lookup_write_file_ne by payload_ne.
        rewrite Hjoint by lia. reflexivity. }
      rewrite play_loop_goal, (play_next_goal_run true rp x Hx). simpl.
      rewrite Hj, Hrp_l, (default_refining L HR), HL.
      destruct b.
      * destruct (trajectory_pure L HR _ _ _ _ _ HL) as (t & Ht). rewrite Ht. simpl.
        match goal with
        | |- context [play_loop true true events ?tl ?rp1] =>
            destruct (Hreplay rp1 tl) as (timeline' & rp' & Hplay & Hobs)
        end; simpl; try congruence.
        { intros k0 i Hi. rewrite Hp1. apply Hagree.
          destruct k0; simpl in *; lia. }
        exists (goal_result true (L_goal_log l) t :: timeline'), rp'. split.
        -- rewrite Hplay, <- app_assoc. reflexivity.
        -- simpl. now rewrite Hobs.
      * simpl.
        match goal with
        | |- context [play_loop true true events ?tl ?rp1] =>
            destruct (Hreplay rp1 tl) as (timeline' & rp' & Hplay & Hobs)
        end; simpl; try congruence.
        { intros k0 i Hi. rewrite Hp1. apply Hagree.
          destruct k0; simpl in *; lia. }
        exists (goal_result false (L_goal_log l) JNull :: timeline'), rp'. split.
        -- rewrite Hplay, <- app_assoc. reflexivity.
        -- simpl. now rewrite Hobs.
Qed.

(** X21: the round trip on a fresh instance.  On an instance whose
    sequence is empty and whose counters are zero, in a dataset
    directory without joint-goal files, with a superclass that is
    [Replayable]: after a session of calls that all returned and a
    [close] that returned, [play(keep_targets=True, refining=True)],
    run with the superclass state the session started from, returns a
    timeline that reports, entry by entry and in the order of the
    calls, the [added_to] of each demonstration and the [is_reached] of
    each goal that the session returned. *)
Theorem replay_round_trip calls st0 outs st1 st2 :
  sequence st0 = JArr [] ->
  record_demo_id st0 = 0 -> record_goal_id st0 = 0 ->
  (forall i, 0 <= i ->
     files (fs st0) !! payload_file (dataset_path st0) KJoint i = None) ->
  record calls st0 = (Ok outs, st1) ->
  close st1 = (Ok tt, st2) ->
  exists timeline st3,
    play true true (set_learner (learner st0) st2) = (Ok timeline, st3) /\
    map observe timeline = map Some outs.
Proof.
  intros Hseq Hd Hg Hjoint Hrec Hclose.
  destruct (replay_recorded calls st0 outs st1 [] Hrec Hseq) as (events & Hseq1 & Hreplay).
  { intros i Hi. apply Hjoint. lia. }
  simpl in Hseq1.
  apply record_counters in Hrec as (_ & _ & Hpath).
  rewrite close_run in Hclose. simpl in Hclose.
  destruct (L_clear (learner st1)) as [lc rc]. injection Hclose as -> <-.
  rewrite (play_unfold true true _ (JArr events)); simpl.
  2:{ rewrite Hseq1. apply lookup_insert_eq. }
  match goal with
  | |- context [play_loop true true events [] ?rp] =>
      destruct (Hreplay rp []) as (timeline & st3 & Hplay & Hobs)
  end; simpl; try congruence.
  { intros k i _. rewrite <- Hpath. apply lookup_insert_ne.
    apply sequence_file_not_payload. }
  exists timeline, st3. auto.
Qed.

End Replay.

End Runs.

(** ** The small instance *)

Lemma Toy_replayable : Replayable Toy.T.
Proof.
  split.
  - reflexivity.
  - intros d e l. destruct d; reflexivity.
  - intros d e l l' k. simpl. unfold Toy.add_demonstration.
    destruct d; try discriminate;
      match goal with |- context [Toy.choose ?d l] => set (t := Toy.choose d l) end;
      intros H Hk;
      (destruct ((0 <=? t) && (t <? Z.of_nat (length (Toy.promps l)))) eqn:E1;
       [ injection H as <- <-;
         pose proof E1 as E0; apply andb_true_iff in E0 as [E0 _]; apply Z.leb_le in E0;
         destruct (Z.eqb_spec t (-1)); [lia|]; rewrite E1; reflexivity
       | destruct (Z.eqb_spec t (Z.of_nat (length (Toy.promps l))));
         [injection H as <- <-; lia | discriminate] ]).
  - intros x j r l l' _. eexists. reflexivity.
Qed.

Example init_first : init "ds" (-1) "/tmp/plots" Toy.empty_fs = (Ok Toy.st0, fs Toy.st0).
Proof. vm_compute. reflexivity. Qed.

Example init_second : init "ds" (-1) "/tmp/plots" (fs Toy.st0) = (Ok Toy.st0', fs Toy.st0').
Proof. vm_compute. reflexivity. Qed.

Example session_recorded :
  record Toy.session Toy.st0 = (Ok [AddedTo 0; IsReached true], Toy.recorded).
Proof. vm_compute. reflexivity. Qed.

Example session_closed : close Toy.recorded = (Ok tt, Toy.closed).
Proof. vm_compute. reflexivity. Qed.

(** The scenario of one demonstration and one goal: what [play]
    returns with the recorded targets, and with targets recomputed. *)
Example session_replayed :
  fst (play true true Toy.closed) =
    Ok [demo_result 0; goal_result true (JNum 0) (JArr [JNum 0])] /\
  fst (play false true Toy.closed) =
    Ok [demo_result 0; goal_result true (JNum 0) (JArr [JNum 0])].
Proof. split; vm_compute; reflexivity. Qed.

(** ** Where the code departs from the statements *)

(** C1: the round trip breaks on a second recording pass.  [close]
    sets both counters back to zero as [__init__] does, but not
    [self.sequence]: on an instance that was closed once, a second
    pass of one demonstration writes [demo_0.json] again, the second
    [close] writes a manifest that lists the events of both passes,
    and [play(True, True)], run with the superclass state the pass
    started from, raises [IOError] on the missing [demo_1.json] where
    the round trip asks for a one-entry timeline with [added_to = 0]. *)
Lemma round_trip_fails_on_second_pass :
  record_demo_id Toy.closed = 0 /\ record_goal_id Toy.closed = 0 /\
  sequence Toy.closed = JArr [demo_event 0; goal_event (JNum 0) (JNum 0)] /\
  learner Toy.closed = Toy.fresh /\
  record Toy.second_pass Toy.closed = (Ok [AddedTo 0], Toy.recorded_again) /\
  close Toy.recorded_again = (Ok tt, Toy.closed_again) /\
  fst (play true true (set_learner (learner Toy.closed) Toy.closed_again)) =
    Raise (IOError "ds/dataset_0/demo_1.json").
Proof. repeat apply conj; vm_compute; reflexivity. Qed.

(** C6 as stated fails for [set_goal]: the superclass is called before
    anything is written, so when it raises, the exception leaves
    [set_goal] with no goal payload on disk. *)
Lemma set_goal_failure_leaves_no_payload :
  snd (L_set_goal JNull JNull None (learner Toy.st0)) = Raise (LearnerError 3) /\
  fst (set_goal JNull JNull Toy.st0) = Raise (LearnerError 3) /\
  files (fs (snd (set_goal JNull JNull Toy.st0)))
    !! payload_file (dataset_path Toy.st0) KCart (record_goal_id Toy.st0) = None /\
  fs (snd (set_goal JNull JNull Toy.st0)) = fs Toy.st0.
Proof. repeat apply conj; vm_compute; reflexivity. Qed.

(** ** Witnesses *)

Lemma auto_id_distinct_witness :
  path_exists (fs Toy.st0) "ds/dataset_0" = true /\
  path_exists (fs Toy.st0) "ds/dataset_1" = false /\
  (0 : Z) <> 1.
Proof.
  apply (auto_id_distinct "ds" (-1) (-1) "/tmp/plots" "/tmp/plots"
           Toy.empty_fs Toy.st0 Toy.st0' (fs Toy.st0) (fs Toy.st0')).
  - lia.
  - lia.
  - vm_compute. reflexivity.
  - vm_compute. reflexivity.
Defined.

(** C2 as stated fails below [-1]: with one primitive, the forced
    index [-5] goes to the superclass as it is. *)
Lemma forced_index_below_range :
  L_num_primitives (learner replaying) = 1%nat /\
  trace (snd (_play_next_demo (JNum (-5)) replaying)) =
    trace replaying ++ [ORead "ds/dataset_0/demo_1.json";
                        ORead "ds/dataset_0/path_1.json";
                        OAddDemonstration (JNum 0) (JStr "eef2") (Some (-5))].
Proof. split; vm_compute; reflexivity. Qed.

Lemma play_next_demo_target_witness :
  (exists t,
     t = -1 /\
     trace (snd (_play_next_demo (JNum 0) Toy.closed)) =
       trace Toy.closed ++ [ORead "ds/dataset_0/demo_0.json";
                            ORead "ds/dataset_0/path_0.json";
                            OAddDemonstration (JNum 7) (JStr "eef") (Some t)]) /\
  (exists t,
     t = 0 /\
     trace (snd (_play_next_demo (JNum 0) replaying)) =
       trace replaying ++ [ORead "ds/dataset_0/demo_1.json";
                           ORead "ds/dataset_0/path_1.json";
                           OAddDemonstration (JNum 0) (JStr "eef2") (Some t)]) /\
  (exists t,
     t = -5 /\
     trace (snd (_play_next_demo (JNum (-5)) replaying)) =
       trace replaying ++ [ORead "ds/dataset_0/demo_1.json";
                           ORead "ds/dataset_0/path_1.json";
                           OAddDemonstration (JNum 0) (JStr "eef2") (Some t)]).
Proof.
  repeat apply conj.
  - destruct (play_next_demo_target Toy.closed 0 (JNum 7) (JStr "eef"))
      as (t & Htrace & _ & Hge & _).
    + vm_compute. reflexivity.
    + vm_compute. reflexivity.
    + exists t. split; [apply Hge; vm_compute; discriminate | exact Htrace].
  - destruct (play_next_demo_target replaying 0 (JNum 0) (JStr "eef2"))
      as (t & Htrace & _ & _ & Hlt & _).
    + vm_compute. reflexivity.
    + vm_compute. reflexivity.
    + exists t. split; [apply Hlt; vm_compute; reflexivity | ].
      etransitivity; [exact Htrace|]. vm_compute. reflexivity.
  - destruct (play_next_demo_target replaying (-5) (JNum 0) (JStr "eef2"))
      as (t & Htrace & _ & _ & _ & _ & _ & Hlow).
    + vm_compute. reflexivity.
    + vm_compute. reflexivity.
    + exists t. split; [apply Hlow; vm_compute; reflexivity | ].
      etransitivity; [exact Htrace|]. vm_compute. reflexivity.
Defined.

Lemma counters_track_occurrences_witness :
  (record_demo_id Toy.recorded = 1 /\ record_goal_id Toy.recorded = 1) /\
  (record_demo_id Toy.closed = 0 /\ record_goal_id Toy.closed = 0) /\
  (record_demo_id (snd (play true true Toy.closed)) = 1 /\
   record_goal_id (snd (play true true Toy.closed)) = 1) /\
  (record_demo_id (snd (play false false (snd (close (snd (record Toy.long_session Toy.st0))))))
     = 2 /\
   record_goal_id (snd (play false false (snd (close (snd (record Toy.long_session Toy.st0))))))
     = 2).
Proof.
  destruct (counters_track_occurrences (L := Toy.T)) as (Hrec & Hclose & Hplay & Hboth).
  repeat apply conj.
  - apply (Hrec Toy.session Toy.st0 [AddedTo 0; IsReached true] Toy.recorded);
      [reflexivity | reflexivity | vm_compute; reflexivity].
  - apply (Hrec Toy.session Toy.st0 [AddedTo 0; IsReached true] Toy.recorded);
      [reflexivity | reflexivity | vm_compute; reflexivity].
  - apply (Hclose Toy.recorded).
  - apply (Hclose Toy.recorded).
  - destruct (Hplay true true Toy.closed
                [demo_result 0; goal_result true (JNum 0) (JArr [JNum 0])]
                (snd (play true true Toy.closed)))
      as (manifest & events & Hm & _ & Hitems & Hd & _);
      [vm_compute; reflexivity|].
    vm_compute in Hm. injection Hm as <-.
    rewrite Hd, (Hitems _ eq_refl). reflexivity.
  - destruct (Hplay true true Toy.closed
                [demo_result 0; goal_result true (JNum 0) (JArr [JNum 0])]
                (snd (play true true Toy.closed)))
      as (manifest & events & Hm & _ & Hitems & _ & Hg);
      [vm_compute; reflexivity|].
    vm_compute in Hm. injection Hm as <-.
    rewrite Hg, (Hitems _ eq_refl). reflexivity.
  - apply (Hboth Toy.long_session Toy.st0
             [AddedTo 0; IsReached true; AddedTo 0; IsReached false]
             (snd (record Toy.long_session Toy.st0)) false false
             (learner (snd (close (snd (record Toy.long_session Toy.st0)))))
             [demo_result 0; goal_result true (JNum 0) (JArr [JNum 0]);
              demo_result 0; goal_result false (JNum 5) JNull]
             (snd (play false false (snd (close (snd (record Toy.long_session Toy.st0)))))));
      [reflexivity | vm_compute; reflexivity | vm_compute; reflexivity].
  - apply (Hboth Toy.long_session Toy.st0
             [AddedTo 0; IsReached true; AddedTo 0; IsReached false]
             (snd (record Toy.long_session Toy.st0)) false false
             (learner (snd (close (snd (record Toy.long_session Toy.st0)))))
             [demo_result 0; goal_result true (JNum 0) (JArr [JNum 0]);
              demo_result 0; goal_result false (JNum 5) JNull]
             (snd (play false false (snd (close (snd (record Toy.long_session Toy.st0)))))));
      [reflexivity | vm_compute; reflexivity | vm_compute; reflexivity].
Defined.


Lemma learner_failure_propagates_witness :
  fst (add_demonstration JNull (JStr "eef") Toy.st0) = Raise (LearnerError 1) /\
  files (fs (snd (add_demonstration JNull (JStr "eef") Toy.st0)))
    !! "ds/dataset_0/path_0.json" = Some (JStr "eef") /\
  fst (set_goal JNull JNull Toy.st0) = Raise (LearnerError 3).
Proof.
  destruct (learner_failure_propagates Toy.st0) as (Hadd & Hgoal & _).
  rewrite (Hadd JNull (JStr "eef") Toy.fresh (LearnerError 1)) by reflexivity.
  rewrite (Hgoal JNull JNull Toy.fresh (LearnerError 3)) by reflexivity.
  repeat apply conj; vm_compute; reflexivity.
Defined.

Lemma close_keeps_sequence_witness :
  sequence Toy.closed = JArr [demo_event 0; goal_event (JNum 0) (JNum 0)] /\
  record_demo_id Toy.closed = 0.
Proof.
  destruct (close_keeps_sequence Toy.recorded
              [demo_event 0; goal_event (JNum 0) (JNum 0)]) as (Hseq & Hd & _).
  - vm_compute. reflexivity.
  - split; [exact Hseq | exact Hd].
Defined.

Lemma replay_round_trip_witness :
  exists timeline st3,
    play true true
      (set_learner (learner Toy.st0) (snd (close (snd (record Toy.long_session Toy.st0)))))
    = (Ok timeline, st3) /\
    map observe timeline =
      [Some (AddedTo 0); Some (IsReached true); Some (AddedTo 0); Some (IsReached false)].
Proof.
  apply (replay_round_trip Toy_replayable Toy.long_session Toy.st0
           [AddedTo 0; IsReached true; AddedTo 0; IsReached false]
           (snd (record Toy.long_session Toy.st0))
           (snd (close (snd (record Toy.long_session Toy.st0))))).
  - reflexivity.
  - reflexivity.
  - reflexivity.
  - intros i _. apply lookup_empty.
  - vm_compute. reflexivity.
  - vm_compute. reflexivity.
Defined.


(** * Further properties of the code *)

(** ** Construction *)

Lemma scan_datasets_least path_ds fs n :
  forall a id path,
  scan_datasets path_ds fs (map Z.of_nat (seq a n)) = Some (id, path) ->
  forall j, Z.of_nat a <= j < id -> path_exists fs (get_dataset_path path_ds j) = true.
Proof.
  induction n as [|n IH]; intros a id path; simpl; [discriminate|].
  destruct (path_exists fs (get_dataset_path path_ds (Z.of_nat a))) eqn:E; simpl.
  - intros Hscan j Hj.
    destruct (Z.eq_dec j (Z.of_nat a)) as [->|Hne]; [assumption|].
    apply (IH (S a) id path Hscan). lia.
  - intros [= <- <-] j Hj. lia.
Qed.

(** X1: an automatic id is the least free one: when construction with
    a negative id resolves to [id], every smaller id from [0] on has
    its dataset path on disk and [id] has not. *)
Theorem auto_id_least path_ds dataset_id fs id path fs' :
  dataset_id < 0 ->
  resolve_dataset path_ds dataset_id fs = (Ok (id, path), fs') ->
  0 <= id < 100 /\
  path_exists fs (get_dataset_path path_ds id) = false /\
  forall j, 0 <= j < id -> path_exists fs (get_dataset_path path_ds j) = true.
Proof.
  intros Hneg Hres.
  destruct (resolve_dataset_auto _ _ _ _ _ _ Hneg Hres) as (Hid & Hp & Hfree & _).
  subst path. split; [lia|]. split; [assumption|].
  revert Hres. unfold resolve_dataset, generate_next_dataset.
  destruct (Z.ltb_spec dataset_id 0); [|lia].
  destruct (scan_datasets path_ds fs (range 100)) as [[i p]|] eqn:Hscan; [|discriminate].
  destruct (path_exists fs p); simpl; intros Heq; injection Heq as Hi Hp _;
    subst i; intros j Hj;
    apply (scan_datasets_least path_ds fs 100 0%nat id p Hscan); simpl; lia.
Qed.

Section Construction.

Context {L : Type} {LL : Learner L}.

Lemma path_exists_makedirs_mono p q fs :
  path_exists fs q = true -> path_exists (makedirs p fs) q = true.
Proof.
  unfold path_exists, makedirs. cbn [files dirs]. intros H.
  apply orb_true_iff in H as [H|H]; apply orb_true_iff; [left|right; exact H].
  apply bool_decide_eq_true in H. apply bool_decide_eq_true. set_solver.
Qed.

(** X2: a construction that returns leaves the dataset directory on
    disk and nothing that was on disk missing, and gives an instance
    whose path is the path of its id and whose id is not negative: the
    id that was asked for when that was not negative, else an id of
    [0..99] whose path was free; its counters are zero and its
    sequence is empty. *)
Theorem init_postcondition path_ds dataset_id path_plots fs0 (st : State L) fs1 :
  init path_ds dataset_id path_plots fs0 = (Ok st, fs1) ->
  fs st = fs1 /\
  path_exists fs1 (dataset_path st) = true /\
  (forall p, path_exists fs0 p = true -> path_exists fs1 p = true) /\
  dataset_path st = get_dataset_path path_ds (self_id st) /\
  0 <= self_id st /\
  (0 <= dataset_id -> self_id st = dataset_id) /\
  (dataset_id < 0 ->
   self_id st < 100 /\ path_exists fs0 (dataset_path st) = false) /\
  record_demo_id st = 0 /\ record_goal_id st = 0 /\ sequence st = JArr [].
Proof.
  intros Hinit.
  apply init_Ok in Hinit as (Hres & Hfs & Hd & Hg & Hseq & _).
  destruct (Z.lt_ge_cases dataset_id 0) as [Hneg|Hpos].
  - apply resolve_dataset_auto in Hres as (Hid & Hp & Hfree & ->); [|assumption].
    repeat apply conj; auto; try lia.
    + apply path_exists_makedirs.
    + intros p. apply path_exists_makedirs_mono.
    + intros _. split; [lia|assumption].
  - rewrite (resolve_dataset_explicit path_ds dataset_id fs0 Hpos) in Hres.
    simpl in Hres. injection Hres as <- <- <-.
    destruct (path_exists fs0 (get_dataset_path path_ds dataset_id)) eqn:E;
      repeat apply conj; auto; try lia.
    + apply path_exists_makedirs.
    + intros p. apply path_exists_makedirs_mono.
Qed.

(** X3: when the constructor of the superclass raises, the exception
    leaves [__init__] as it is, after the dataset directory has been
    made: the id is taken although no instance exists. *)
Theorem init_superclass_failure path_ds dataset_id path_plots fs0 id path fs1 ex :
  resolve_dataset path_ds dataset_id fs0 = (Ok (id, path), fs1) ->
  L_init (join path_plots (dataset_name id)) = Raise ex ->
  init path_ds dataset_id path_plots fs0 = (Raise ex, fs1) /\
  path_exists fs1 path = true.
Proof.
  intros Hres HL. unfold init. rewrite Hres, HL. split; [reflexivity|].
  revert Hres. unfold resolve_dataset.
  destruct (if dataset_id <? 0 then generate_next_dataset path_ds dataset_id fs0
            else (dataset_id, Some (get_dataset_path path_ds dataset_id))) as [i [p|]];
    [|discriminate].
  destruct (path_exists fs0 p) eqn:E; simpl; intros [= <- <- <-];
    [assumption|apply path_exists_makedirs].
Qed.

End Construction.

(** X4: opening a dataset by an explicit id is idempotent on disk: the
    second resolution of the same id changes nothing, and a dataset
    whose path exists is opened without any change. *)
Theorem explicit_id_idempotent path_ds d fs :
  0 <= d ->
  snd (resolve_dataset path_ds d (snd (resolve_dataset path_ds d fs)))
    = snd (resolve_dataset path_ds d fs) /\
  (path_exists fs (get_dataset_path path_ds d) = true ->
   snd (resolve_dataset path_ds d fs) = fs).
Proof.
  intros Hd. rewrite !resolve_dataset_explicit by assumption. simpl.
  destruct (path_exists fs (get_dataset_path path_ds d)) eqn:E.
  - rewrite E. auto.
  - rewrite path_exists_makedirs. split; [reflexivity|discriminate].
Qed.

(** X5: datasets of different ids have different paths. *)
Theorem dataset_paths_distinct path_ds i j :
  get_dataset_path path_ds i = get_dataset_path path_ds j -> i = j.
Proof.
  unfold get_dataset_path. intros H.
  apply join_inj in H; [|reflexivity|reflexivity].
  unfold dataset_name in H. apply (inj (String.app "dataset_")) in H.
  now apply (inj pretty) in H.
Qed.

(** X6: inside a dataset no two occurrences share a file: the file of
    one kind and index is the file of no other kind or index, and it
    is never the manifest. *)
Theorem payload_files_distinct path k i k' i' :
  (payload_file path k i = payload_file path k' i' <-> k = k' /\ i = i') /\
  payload_file path k i <> sequence_file path.
Proof.
  split; [split|].
  - apply payload_file_inj.
  - now intros [-> ->].
  - intros H. symmetry in H. now apply sequence_file_not_payload in H.
Qed.

(** ** Recording, continued *)

Ltac payload_ne :=
  let H := fresh "Hne" in
  intros H; apply payload_file_inj in H as [? ?]; simpl in *;
  first [discriminate | lia | congruence].

(** Reduce the projections of a state, and nothing else. *)
Ltac prj :=
  cbn [fst snd fs trace self_id dataset_path record_demo_id record_goal_id
       sequence learner dirs].

Section Recording.

Context {L : Type} {LL : Learner L}.

Implicit Types st : State L.


(** X8: the files a failed [add_demonstration] leaves are overwritten
    by the next one: the counter did not move, so a call that succeeds
    afterwards writes under the same index, and the sequence and the
    counter go on as if the failed call had not been made. *)
Theorem failed_demonstration_overwritten d e d2 e2 st l1 ex l2 k items :
  L_add_demonstration d e None (learner st) = (l1, Raise ex) ->
  L_add_demonstration d2 e2 None l1 = (l2, Ok k) ->
  sequence st = JArr items ->
  let i := record_demo_id st in
  let st1 := snd (add_demonstration d e st) in
  let st2 := snd (add_demonstration d2 e2 st1) in
  files (fs st1) !! payload_file (dataset_path st) KDemo i = Some d /\
  record_demo_id st1 = i /\
  fst (add_demonstration d2 e2 st1) = Ok k /\
  files (fs st2) !! payload_file (dataset_path st) KDemo i = Some d2 /\
  files (fs st2) !! payload_file (dataset_path st) KPath i = Some e2 /\
  record_demo_id st2 = i + 1 /\
  sequence st2 = JArr (items ++ [demo_event k]).
Proof.
  intros H1 H2 Hseq i st1 st2. subst st2 st1 i.
  rewrite (add_demonstration_run d e st). simpl. rewrite H1. simpl.
  rewrite add_demonstration_run. simpl. rewrite H2, Hseq. simpl.
  assert (Hne : payload_file (dataset_path st) KPath (record_demo_id st)
                <> payload_file (dataset_path st) KDemo (record_demo_id st)) by payload_ne.
  repeat apply conj; try reflexivity.
  - rewrite lookup_insert_ne by exact Hne. apply lookup_insert_eq.
  - rewrite lookup_insert_ne by exact Hne. apply lookup_insert_eq.
  - apply lookup_insert_eq.
Qed.

(** One recording call, however it ends. *)
Lemma record_one_any c st :
  let st1 := snd (record_one c st) in
  dataset_path st1 = dataset_path st /\
  dirs (fs st1) = dirs (fs st) /\
  files (fs st1) !! sequence_file (dataset_path st) =
    files (fs st) !! sequence_file (dataset_path st) /\
  record_demo_id st <= record_demo_id st1 /\
  record_goal_id st <= record_goal_id st1 /\
  forall items, sequence st = JArr items ->
    exists more, sequence st1 = JArr (items ++ more).
Proof.
  assert (Hseqfile : forall k i v (f : FS),
            files (write_file (payload_file (dataset_path st) k i) v f)
              !! sequence_file (dataset_path st)
            = files f !! sequence_file (dataset_path st)).
  { intros k i v f. apply lookup_write_file_ne.
    intros H. symmetry in H. now apply sequence_file_not_payload in H. }
  destruct c as [d e|x j]; unfold record_one, bind, ret.
  - rewrite add_demonstration_run. prj.
    destruct (L_add_demonstration d e None (learner st)) as [l [k|ex]]; prj.
    + destruct (sequence st) as [| | | |items0|] eqn:Hseq; prj;
        rewrite !Hseqfile; repeat apply conj; auto; try lia; try discriminate.
      intros items [= <-]. eauto.
    + rewrite !Hseqfile. repeat apply conj; auto; try lia.
      intros items ->. exists []. now rewrite app_nil_r.
  - rewrite set_goal_run. prj.
    destruct (L_set_goal x j None (learner st)) as [l [b|ex]]; prj.
    + destruct (sequence st) as [| | | |items0|] eqn:Hseq; prj;
        destruct (is_none j); prj; rewrite !Hseqfile;
        repeat apply conj; auto; try lia; try discriminate.
      all: intros items [= <-]; eauto.
    + repeat apply conj; auto; try lia.
      intros items ->. exists []. now rewrite app_nil_r.
Qed.

Lemma record_unfold c calls st :
  record (c :: calls) st =
  match record_one c st with
  | (Ok o, st1) =>
      match record calls st1 with
      | (Ok os, st2) => (Ok (o :: os), st2)
      | (Raise ex, st2) => (Raise ex, st2)
      end
  | (Raise ex, st1) => (Raise ex, st1)
  end.
Proof.
  simpl. unfold bind, ret.
  destruct (record_one c st) as [[o|ex] st1]; [|reflexivity].
  destruct (record calls st1) as [[os|ex] st2]; reflexivity.
Qed.

(** X9: a recording session, however it ends, only appends to
    [self.sequence], never moves a counter back, and leaves the
    manifest on disk and the directories as they were: the manifest is
    written by [close] alone. *)
Theorem recording_leaves_manifest calls :
  forall st,
  let st' := snd (record calls st) in
  dataset_path st' = dataset_path st /\
  dirs (fs st') = dirs (fs st) /\
  files (fs st') !! sequence_file (dataset_path st) =
    files (fs st) !! sequence_file (dataset_path st) /\
  record_demo_id st <= record_demo_id st' /\
  record_goal_id st <= record_goal_id st' /\
  forall items, sequence st = JArr items ->
    exists more, sequence st' = JArr (items ++ more).
Proof.
  induction calls as [|c calls IH]; intros st.
  - simpl. repeat apply conj; auto; try lia.
    intros items ->. exists []. now rewrite app_nil_r.
  - cbv zeta. rewrite record_unfold.
    pose proof (record_one_any c st) as Hone. simpl in Hone.
    destruct (record_one c st) as [[o|ex] st1]; simpl in Hone; [|exact Hone].
    destruct Hone as (Hp & Hdirs & Hfile & Hd & Hg & Hseq).
    specialize (IH st1). simpl in IH.
    destruct (record calls st1) as [[os|ex] st2]; simpl in IH |- *;
      destruct IH as (Hp' & Hdirs' & Hfile' & Hd' & Hg' & Hseq');
      rewrite Hp in Hfile';
      (repeat apply conj; try congruence; try lia;
       intros items Hitems; destruct (Hseq items Hitems) as (m1 & H1);
       destruct (Hseq' _ H1) as (m2 & H2); exists (m1 ++ m2);
       now rewrite H2, app_assoc).
Qed.

(** After a session the payloads lie under the indices of their
    occurrences. *)
Lemma record_payloads calls :
  forall st outs st',
  record calls st = (Ok outs, st') ->
  (forall n d e, demos_of calls !! n = Some (d, e) ->
     files (fs st') !! payload_file (dataset_path st) KDemo (record_demo_id st + Z.of_nat n)
       = Some d /\
     files (fs st') !! payload_file (dataset_path st) KPath (record_demo_id st + Z.of_nat n)
       = Some e) /\
  (forall n x j, goals_of calls !! n = Some (x, j) ->
     files (fs st') !! payload_file (dataset_path st) KCart (record_goal_id st + Z.of_nat n)
       = Some x /\
     (is_none j = false ->
      files (fs st') !! payload_file (dataset_path st) KJoint (record_goal_id st + Z.of_nat n)
        = Some j)).
Proof.
  induction calls as [|c calls IH]; intros st outs st' Hrun.
  - split; intros n ? ? Hn; destruct n; discriminate Hn.
  - apply record_cons in Hrun as (o & st1 & outs' & H1 & Hrest & ->).
    pose proof (record_frame _ _ _ _ Hrest) as Hframe.
    destruct (IH st1 outs' st' Hrest) as (IHd & IHg).
    apply record_one_Ok in H1. destruct c as [d0 e0|x0 j0].
    + destruct H1 as (k & _ & H1).
      apply add_demonstration_Ok in H1 as (l & items & _ & _ & _ & _ & Hp & Hd & Hg & Hfs).
      rewrite Hp in Hframe, IHd, IHg. split.
      * intros [|n] d e Hn; simpl in Hn.
        -- injection Hn as <- <-. rewrite Z.add_0_r.
           rewrite !Hframe by (left; simpl; lia). rewrite Hfs.
           split; [|apply lookup_write_file_eq].
           rewrite lookup_write_file_ne by payload_ne. apply lookup_write_file_eq.
        -- replace (record_demo_id st + Z.of_nat (S n))
             with (record_demo_id st1 + Z.of_nat n) by lia.
           now apply IHd.
      * intros n x j Hn. simpl in Hn. rewrite <- Hg. now apply IHg.
    + destruct H1 as (b & _ & H1).
      apply set_goal_Ok in H1 as (l & items & _ & _ & _ & _ & Hp & Hd & Hg & Hfs).
      rewrite Hp in Hframe, IHd, IHg. split.
      * intros n d e Hn. simpl in Hn. rewrite <- Hd. now apply IHd.
      * intros [|n] x j Hn; simpl in Hn.
        -- injection Hn as <- <-. rewrite Z.add_0_r.
           rewrite !Hframe by (left; simpl; lia). rewrite Hfs.
           destruct (is_none j0) eqn:Hj0.
           ++ split; [apply lookup_write_file_eq|discriminate].
           ++ split; [|intros _; apply lookup_write_file_eq].
              rewrite lookup_write_file_ne by payload_ne. apply lookup_write_file_eq.
        -- replace (record_goal_id st + Z.of_nat (S n))
             with (record_goal_id st1 + Z.of_nat n) by lia.
           now apply IHg.
Qed.

(** X10: what a session of calls that all returned has written can be
    read back by index: the [n]-th demonstration of the session is in
    [demo_<c+n>.json] and [path_<c+n>.json], the [n]-th goal in
    [cart_goal_<c+n>.json], and its joint goal, when one was given, in
    [joint_goal_<c+n>.json], [c] being the counter at the start. *)
Theorem recorded_payloads_by_index calls st outs st' :
  record calls st = (Ok outs, st') ->
  (forall n d e, demos_of calls !! n = Some (d, e) ->
     files (fs st') !! payload_file (dataset_path st) KDemo (record_demo_id st + Z.of_nat n)
       = Some d /\
     files (fs st') !! payload_file (dataset_path st) KPath (record_demo_id st + Z.of_nat n)
       = Some e) /\
  (forall n x j, goals_of calls !! n = Some (x, j) ->
     files (fs st') !! payload_file (dataset_path st) KCart (record_goal_id st + Z.of_nat n)
       = Some x /\
     (is_none j = false ->
      files (fs st') !! payload_file (dataset_path st) KJoint (record_goal_id st + Z.of_nat n)
        = Some j)).
Proof. apply record_payloads. Qed.


(** X12: [close] twice in a row is [close] once, as far as the disk,
    the counters and the sequence go: the second call writes the same
    manifest again. *)
Theorem close_twice st :
  let st1 := snd (close st) in
  let st2 := snd (close st1) in
  fs st2 = fs st1 /\ sequence st2 = sequence st1 /\
  record_demo_id st2 = 0 /\ record_goal_id st2 = 0 /\
  dataset_path st2 = dataset_path st1.
Proof.
  simpl. rewrite (close_run st). destruct (L_clear (learner st)) as [l r]. simpl.
  rewrite close_run. simpl. destruct (L_clear l) as [l' r']. simpl.
  repeat apply conj; try reflexivity.
  unfold write_file. simpl. f_equal. apply insert_insert_eq.
Qed.

End Recording.

(** ** Replay, continued *)

Section Replaying.

Context {L : Type} {LL : Learner L}.

Implicit Types st : State L.

(** X13: a payload that is missing stops the replay step where it is
    read: [IOError] on that file, the counter not moved and the
    superclass not called; for a demonstration both files are needed,
    for a goal the Cartesian one. *)
Theorem missing_payload_raises st :
  let path := dataset_path st in
  (forall r,
     files (fs st) !! payload_file path KDemo (record_demo_id st) = None ->
     _play_next_demo r st = (Raise (IOError (payload_file path KDemo (record_demo_id st))), st)) /\
  (forall r d,
     files (fs st) !! payload_file path KDemo (record_demo_id st) = Some d ->
     files (fs st) !! payload_file path KPath (record_demo_id st) = None ->
     fst (_play_next_demo r st) = Raise (IOError (payload_file path KPath (record_demo_id st))) /\
     record_demo_id (snd (_play_next_demo r st)) = record_demo_id st /\
     learner (snd (_play_next_demo r st)) = learner st /\
     trace (snd (_play_next_demo r st)) =
       trace st ++ [ORead (payload_file path KDemo (record_demo_id st))]) /\
  (forall refining,
     files (fs st) !! payload_file path KCart (record_goal_id st) = None ->
     _play_next_goal refining st =
       (Raise (IOError (payload_file path KCart (record_goal_id st))), st)).
Proof.
  unfold payload_file. simpl. repeat apply conj.
  - intros r H. unfold _play_next_demo. run. now rewrite H.
  - intros r d Hd He. unfold _play_next_demo. run. rewrite Hd. simpl. rewrite He. simpl.
    auto.
  - intros refining H. unfold _play_next_goal. run. now rewrite H.
Qed.

(** X14: [_play_next_goal] with the Cartesian goal on disk: the joint
    goal that goes to the superclass is what [joint_goal_<i>.json]
    holds, [None] when there is no such file; the counter goes up
    before the superclass is called and stays up when it raises; a goal
    that is turned down gives [(False, None)] without a call of
    [generate_trajectory]; a goal that is taken is followed by exactly
    one such call, whose result is returned with [True]. *)
Theorem play_next_goal_effect refining st x :
  let path := dataset_path st in
  let i := record_goal_id st in
  let joint := payload_file path KJoint i in
  let j := default JNull (files (fs st) !! joint) in
  let reads := ORead (payload_file path KCart i) ::
                 (if isfile (fs st) joint then [ORead joint] else []) in
  let st' := snd (_play_next_goal refining st) in
  files (fs st) !! payload_file path KCart i = Some x ->
  record_goal_id st' = i + 1 /\ record_demo_id st' = record_demo_id st /\
  (forall l ex,
     L_set_goal x j (Some refining) (learner st) = (l, Raise ex) ->
     fst (_play_next_goal refining st) = Raise ex /\ learner st' = l /\
     trace st' = trace st ++ reads ++ [OSetGoal x j (Some refining)]) /\
  (forall l,
     L_set_goal x j (Some refining) (learner st) = (l, Ok false) ->
     fst (_play_next_goal refining st) = Ok (false, JNull) /\ learner st' = l /\
     trace st' = trace st ++ reads ++ [OSetGoal x j (Some refining)]) /\
  (forall l l2 t,
     L_set_goal x j (Some refining) (learner st) = (l, Ok true) ->
     L_generate_trajectory l = (l2, Ok t) ->
     fst (_play_next_goal refining st) = Ok (true, t) /\ learner st' = l2 /\
     trace st' = trace st ++ reads ++ [OSetGoal x j (Some refining); OGenerateTrajectory]).
Proof.
  intros path i joint j reads st' Hx. subst st'.
  rewrite (play_next_goal_run refining st x Hx). cbv zeta.
  fold path i joint j.
  destruct (L_set_goal x j (Some refining) (learner st)) as [l [[|]|ex]] eqn:HL.
  - destruct (L_generate_trajectory l) as [l2 tres] eqn:HT. prj.
    repeat apply conj; try reflexivity; try (intros; discriminate).
    intros l' l2' t [= <-] Ht. rewrite HT in Ht. injection Ht as <- ->.
    repeat apply conj; try reflexivity.
    subst reads. rewrite <- !app_assoc. reflexivity.
  - prj. repeat apply conj; try reflexivity; try (intros; discriminate).
    intros l' [= <-]. auto.
  - prj. repeat apply conj; try reflexivity; try (intros; discriminate).
    intros l' ex' [= <- <-]. auto.
Qed.

(** A replay step, however it ends, writes nothing. *)
Lemma play_next_demo_any r st :
  let st' := snd (_play_next_demo r st) in
  fs st' = fs st /\ dataset_path st' = dataset_path st /\
  sequence st' = sequence st /\ self_id st' = self_id st.
Proof.
  unfold _play_next_demo. run.
  repeat (case_match; simplify_eq/=); auto.
Qed.

Lemma play_next_goal_any refining st :
  let st' := snd (_play_next_goal refining st) in
  fs st' = fs st /\ dataset_path st' = dataset_path st /\
  sequence st' = sequence st /\ self_id st' = self_id st.
Proof.
  unfold _play_next_goal. run.
  repeat (case_match; simplify_eq/=); auto.
Qed.

Lemma play_loop_step keep_targets refining event events timeline st :
  play_loop keep_targets refining (event :: events) timeline st =
  match getitem event "type" with
  | Raise ex => (Raise ex, st)
  | Ok ty =>
      if str_eq ty "demo" then
        match (if keep_targets then getitem event "added_to" else Ok (JNum (-1))) with
        | Raise ex => (Raise ex, st)
        | Ok receiving =>
            match _play_next_demo receiving st with
            | (Ok target, st1) =>
                play_loop keep_targets refining events (timeline ++ [demo_result target]) st1
            | (Raise ex, st1) => (Raise ex, st1)
            end
        end
      else if str_eq ty "goal" then
        match _play_next_goal refining st with
        | (Ok r, st1) =>
            play_loop keep_targets refining events
              (timeline ++ [goal_result (fst r) (L_goal_log (learner st1)) (snd r)]) st1
        | (Raise ex, st1) => (Raise ex, st1)
        end
      else play_loop keep_targets refining events timeline st
  end.
Proof.
  simpl. unfold bind at 1, lift_res at 1.
  destruct (getitem event "type") as [ty|ex]; [|reflexivity].
  destruct (str_eq ty "demo"); [|destruct (str_eq ty "goal")]; try reflexivity.
  unfold bind at 1. destruct keep_targets; unfold lift_res, ret;
    [destruct (getitem event "added_to")|]; reflexivity.
Qed.

Lemma play_loop_any keep_targets refining events :
  forall timeline st,
  let st' := snd (play_loop keep_targets refining events timeline st) in
  fs st' = fs st /\ dataset_path st' = dataset_path st /\
  sequence st' = sequence st /\ self_id st' = self_id st.
Proof.
  induction events as [|event events IH]; intros timeline st; [simpl; auto|].
  cbv zeta. rewrite play_loop_step.
  destruct (getitem event "type") as [ty|ex]; [|simpl; auto].
  destruct (str_eq ty "demo"); [|destruct (str_eq ty "goal")].
  - destruct (if keep_targets then getitem event "added_to" else Ok (JNum (-1)))
      as [receiving|ex]; [|simpl; auto].
    pose proof (play_next_demo_any receiving st) as Hstep. cbv zeta in Hstep.
    destruct (_play_next_demo receiving st) as [[target|ex] st1]; simpl in Hstep.
    + destruct (IH (timeline ++ [demo_result target]) st1) as (H1 & H2 & H3 & H4).
      destruct Hstep as (G1 & G2 & G3 & G4). repeat apply conj; congruence.
    + exact Hstep.
  - pose proof (play_next_goal_any refining st) as Hstep. cbv zeta in Hstep.
    destruct (_play_next_goal refining st) as [[r|ex] st1]; simpl in Hstep.
    + destruct (IH (timeline ++ [goal_result (fst r) (L_goal_log (learner st1)) (snd r)]) st1)
        as (H1 & H2 & H3 & H4).
      destruct Hstep as (G1 & G2 & G3 & G4). repeat apply conj; congruence.
    + exact Hstep.
  - apply IH.
Qed.

Lemma play_no_manifest keep_targets refining st :
  files (fs st) !! sequence_file (dataset_path st) = None ->
  play keep_targets refining st =
    (Raise (IOError (sequence_file (dataset_path st))),
     mkState (fs st) (trace st) (self_id st) (dataset_path st) 0 0
       (sequence st) (learner st)).
Proof. intros Hm. unfold play. run. unfold sequence_file in Hm. now rewrite Hm. Qed.

(** X15: [play] writes nothing, however it ends; without a manifest it
    raises [IOError] on [sequence.json] with both counters already at
    zero, the sequence in memory kept and the superclass untouched;
    with a manifest the sequence in memory is what the manifest holds,
    from the load on, also when the replay raises later. *)
Theorem play_reads_only keep_targets refining st :
  let file := sequence_file (dataset_path st) in
  let st' := snd (play keep_targets refining st) in
  fs st' = fs st /\ dataset_path st' = dataset_path st /\
  (files (fs st) !! file = None ->
   play keep_targets refining st =
     (Raise (IOError file),
      mkState (fs st) (trace st) (self_id st) (dataset_path st) 0 0
        (sequence st) (learner st))) /\
  (forall manifest, files (fs st) !! file = Some manifest -> sequence st' = manifest).
Proof.
  cbv zeta.
  destruct (files (fs st) !! sequence_file (dataset_path st)) as [manifest|] eqn:Hm.
  - rewrite (play_unfold keep_targets refining st manifest Hm). cbv zeta.
    destruct (iterate manifest) as [events|ex].
    + match goal with
      | |- context [play_loop keep_targets refining events [] ?s] =>
          destruct (play_loop_any keep_targets refining events [] s) as (H1 & H2 & H3 & _)
      end.
      simpl in H1, H2, H3. repeat apply conj; auto; try discriminate.
      intros m [= <-]. exact H3.
    + simpl. repeat apply conj; auto; try discriminate. now intros m [= <-].
  - rewrite (play_no_manifest keep_targets refining st Hm). simpl.
    repeat apply conj; auto. discriminate.
Qed.

End Replaying.

Section Timeline.

Context {L : Type} {LL : Learner L}.

Implicit Types st : State L.

Lemma event_is_type kind event ty :
  getitem event "type" = Ok ty -> event_is kind event = str_eq ty kind.
Proof. intros H. unfold event_is. now rewrite H. Qed.

Lemma play_loop_timeline keep_targets refining events :
  forall timeline st timeline' st',
  play_loop keep_targets refining events timeline st = (Ok timeline', st') ->
  exists new,
    timeline' = timeline ++ new /\
    length new = (length (List.filter (event_is "demo") events)
                  + length (List.filter (event_is "goal") events))%nat /\
    Forall (fun entry => event_is "demo" entry = true \/ event_is "goal" entry = true) new.
Proof.
  induction events as [|event events IH]; intros timeline st timeline' st' Hrun.
  - simpl in Hrun. unfold ret in Hrun. injection Hrun as <- _.
    exists []. rewrite app_nil_r. repeat apply conj; auto.
  - rewrite play_loop_step in Hrun.
    destruct (getitem event "type") as [ty|ex] eqn:Hty; [|discriminate].
    simpl. rewrite !(event_is_type _ event ty Hty).
    destruct (str_eq ty "demo") eqn:Edemo.
    + rewrite (str_eq_demo_goal ty Edemo).
      destruct (if keep_targets then getitem event "added_to" else Ok (JNum (-1)))
        as [receiving|ex]; [|discriminate].
      destruct (_play_next_demo receiving st) as [[target|ex] st1]; [|discriminate].
      apply IH in Hrun as (new & -> & Hlen & Hall).
      exists (demo_result target :: new). rewrite <- app_assoc.
      repeat apply conj; [reflexivity|simpl; lia|constructor; auto].
    + destruct (str_eq ty "goal") eqn:Egoal.
      * destruct (_play_next_goal refining st) as [[r|ex] st1]; [|discriminate].
        apply IH in Hrun as (new & -> & Hlen & Hall).
        exists (goal_result (fst r) (L_goal_log (learner st1)) (snd r) :: new).
        rewrite <- app_assoc.
        repeat apply conj; [reflexivity|simpl; lia|constructor; auto].
      * apply IH in Hrun as (new & -> & Hlen & Hall). exists new. auto.
Qed.

Lemma play_loop_answers keep_targets refining events :
  forall timeline st timeline' st',
  play_loop keep_targets refining events timeline st = (Ok timeline', st') ->
  exists new,
    timeline' = timeline ++ new /\
    Forall2 (fun event entry =>
               if event_is "demo" event then exists target, entry = demo_result target
               else exists is_reached goal_log trajectory,
                      entry = goal_result is_reached goal_log trajectory)
      (List.filter (fun event => event_is "demo" event || event_is "goal" event) events)
      new.
Proof.
  induction events as [|event events IH]; intros timeline st timeline' st' Hrun.
  - simpl in Hrun. unfold ret in Hrun. injection Hrun as <- _.
    exists []. rewrite app_nil_r. split; [reflexivity|constructor].
  - rewrite play_loop_step in Hrun.
    destruct (getitem event "type") as [ty|ex] eqn:Hty; [|discriminate].
    simpl. rewrite !(event_is_type _ event ty Hty).
    destruct (str_eq ty "demo") eqn:Edemo.
    + destruct (if keep_targets then getitem event "added_to" else Ok (JNum (-1)))
        as [receiving|ex]; [|discriminate].
      destruct (_play_next_demo receiving st) as [[target|ex] st1]; [|discriminate].
      apply IH in Hrun as (new & -> & Hall).
      exists (demo_result target :: new). rewrite <- app_assoc.
      split; [reflexivity|]. simpl. constructor; [|exact Hall].
      rewrite (event_is_type _ event ty Hty), Edemo. eauto.
    + destruct (str_eq ty "goal") eqn:Egoal.
      * destruct (_play_next_goal refining st) as [[r|ex] st1]; [|discriminate].
        apply IH in Hrun as (new & -> & Hall).
        exists (goal_result (fst r) (L_goal_log (learner st1)) (snd r) :: new).
        rewrite <- app_assoc.
        split; [reflexivity|]. simpl. constructor; [|exact Hall].
        rewrite (event_is_type _ event ty Hty), Edemo. eauto.
      * apply IH in Hrun as (new & -> & Hall). exists new. auto.
Qed.

(** X16: the timeline that [play] returns answers, one entry each and
    in their order, the events of the manifest whose type is ['demo']
    or ['goal']: a demo event by a demo entry, a goal event by a goal
    entry; an event of any other type is passed over without an entry
    and without an error.  The events are the items of the manifest
    when the manifest is a list. *)
Theorem timeline_one_entry_per_event keep_targets refining st timeline st' :
  play keep_targets refining st = (Ok timeline, st') ->
  exists manifest events,
    files (fs st) !! sequence_file (dataset_path st) = Some manifest /\
    iterate manifest = Ok events /\
    (forall items, manifest = JArr items -> events = items) /\
    Forall2 (fun event entry =>
               if event_is "demo" event then exists target, entry = demo_result target
               else exists is_reached goal_log trajectory,
                      entry = goal_result is_reached goal_log trajectory)
      (List.filter (fun event => event_is "demo" event || event_is "goal" event) events)
      timeline /\
    length timeline = (length (List.filter (event_is "demo") events)
                       + length (List.filter (event_is "goal") events))%nat /\
    Forall (fun entry => event_is "demo" entry = true \/ event_is "goal" entry = true)
      timeline.
Proof.
  intros Hrun.
  destruct (files (fs st) !! sequence_file (dataset_path st)) as [manifest|] eqn:Hm.
  - rewrite (play_unfold _ _ _ manifest Hm) in Hrun. cbv zeta in Hrun.
    destruct (iterate manifest) as [events|ex] eqn:Hit; [|discriminate].
    destruct (play_loop_answers _ _ _ _ _ _ _ Hrun) as (new' & Hnew' & Hanswers).
    apply play_loop_timeline in Hrun as (new & -> & Hlen & Hall).
    simpl in Hnew'. subst new'.
    exists manifest, events. repeat apply conj; auto.
    intros items ->. simpl in Hit. congruence.
  - exfalso. revert Hrun. unfold play. run. unfold sequence_file in Hm.
    rewrite Hm. discriminate.
Qed.

Lemma promp_target_minus_one np : promp_target np (-1) = -1.
Proof. unfold promp_target. now destruct (Z.of_nat np <=? -1). Qed.

Ltac grown :=
  first
    [ exists []; split; [symmetry; apply app_nil_r | constructor]
    | eexists; split;
      [ rewrite <- ?app_assoc; reflexivity
      | simpl;
        repeat (constructor;
                [ first [exact I | f_equal; apply promp_target_minus_one] | ]);
        constructor ] ].

Lemma play_next_demo_sentinel st :
  exists new,
    trace (snd (_play_next_demo (JNum (-1)) st)) = trace st ++ new /\
    Forall (fun o => match o with
                     | OWrite _ _ => False
                     | OAddDemonstration _ _ t => t = Some (-1)
                     | _ => True
                     end) new.
Proof.
  unfold _play_next_demo. run.
  repeat (case_match; simplify_eq/=); grown.
Qed.

Lemma play_next_goal_no_demo refining st :
  exists new,
    trace (snd (_play_next_goal refining st)) = trace st ++ new /\
    Forall (fun o => match o with
                     | OWrite _ _ => False
                     | OAddDemonstration _ _ t => t = Some (-1)
                     | _ => True
                     end) new.
Proof.
  unfold _play_next_goal. run.
  repeat (case_match; simplify_eq/=); grown.
Qed.

Lemma play_loop_sentinel refining events :
  forall timeline st,
  exists new,
    trace (snd (play_loop false refining events timeline st)) = trace st ++ new /\
    Forall (fun o => match o with
                     | OWrite _ _ => False
                     | OAddDemonstration _ _ t => t = Some (-1)
                     | _ => True
                     end) new.
Proof.
  induction events as [|event events IH]; intros timeline st.
  - simpl. exists []. split; [symmetry; apply app_nil_r|constructor].
  - rewrite play_loop_step.
    destruct (getitem event "type") as [ty|ex];
      [|exists []; split; [symmetry; apply app_nil_r|constructor]].
    destruct (str_eq ty "demo"); [|destruct (str_eq ty "goal")].
    + destruct (play_next_demo_sentinel st) as (n1 & H1 & P1).
      destruct (_play_next_demo (JNum (-1)) st) as [[target|ex] st1]; simpl in H1.
      * destruct (IH (timeline ++ [demo_result target]) st1) as (n2 & H2 & P2).
        exists (n1 ++ n2). rewrite H2, H1, app_assoc. split; [reflexivity|].
        now apply Forall_app.
      * exists n1. auto.
    + destruct (play_next_goal_no_demo refining st) as (n1 & H1 & P1).
      destruct (_play_next_goal refining st) as [[r|ex] st1]; simpl in H1.
      * destruct (IH (timeline ++ [goal_result (fst r) (L_goal_log (learner st1)) (snd r)]) st1)
          as (n2 & H2 & P2).
        exists (n1 ++ n2). rewrite H2, H1, app_assoc. split; [reflexivity|].
        now apply Forall_app.
      * exists n1. auto.
    + apply IH.
Qed.

(** X17: [play(keep_targets=False)], however it ends, only adds reads
    and superclass calls to what happened before, and every
    demonstration it resubmits goes with the target [-1]: the
    [added_to] of the manifest is not even read. *)
Theorem play_recomputing_targets refining st :
  exists new,
    trace (snd (play false refining st)) = trace st ++ new /\
    Forall (fun o => match o with
                     | OWrite _ _ => False
                     | OAddDemonstration _ _ t => t = Some (-1)
                     | _ => True
                     end) new.
Proof.
  destruct (files (fs st) !! sequence_file (dataset_path st)) as [manifest|] eqn:Hm.
  - rewrite (play_unfold _ _ _ manifest Hm). cbv zeta.
    destruct (iterate manifest) as [events|ex].
    + match goal with
      | |- context [play_loop false refining events [] ?s] =>
          destruct (play_loop_sentinel refining events [] s) as (new & Hnew & Hall)
      end.
      simpl in Hnew.
      exists (ORead (sequence_file (dataset_path st)) :: new).
      rewrite Hnew, <- app_assoc. split; [reflexivity|]. now constructor.
    + simpl. eexists. split; [reflexivity|]. repeat constructor.
  - unfold play. run. unfold sequence_file in Hm. rewrite Hm. simpl.
    exists []. split; [symmetry; apply app_nil_r|constructor].
Qed.

Lemma play_next_demo_attrs r st1 st2 :
  attrs st1 = attrs st2 ->
  fst (_play_next_demo r st1) = fst (_play_next_demo r st2) /\
  attrs (snd (_play_next_demo r st1)) = attrs (snd (_play_next_demo r st2)).
Proof.
  destruct st1, st2. unfold attrs. simpl. intros H. simplify_eq.
  unfold _play_next_demo. run.
  repeat (case_match; simplify_eq/=); auto.
Qed.

Lemma play_next_goal_attrs refining st1 st2 :
  attrs st1 = attrs st2 ->
  fst (_play_next_goal refining st1) = fst (_play_next_goal refining st2) /\
  attrs (snd (_play_next_goal refining st1)) = attrs (snd (_play_next_goal refining st2)).
Proof.
  destruct st1, st2. unfold attrs. simpl. intros H. simplify_eq.
  unfold _play_next_goal. run.
  repeat (case_match; simplify_eq/=); auto.
Qed.

Lemma play_loop_attrs keep_targets refining events :
  forall timeline st1 st2,
  attrs st1 = attrs st2 ->
  fst (play_loop keep_targets refining events timeline st1)
    = fst (play_loop keep_targets refining events timeline st2) /\
  attrs (snd (play_loop keep_targets refining events timeline st1))
    = attrs (snd (play_loop keep_targets refining events timeline st2)).
Proof.
  induction events as [|event events IH]; intros timeline st1 st2 Hattrs; [simpl; auto|].
  rewrite !play_loop_step.
  destruct (getitem event "type") as [ty|ex]; [|simpl; auto].
  destruct (str_eq ty "demo"); [|destruct (str_eq ty "goal")].
  - destruct (if keep_targets then getitem event "added_to" else Ok (JNum (-1)))
      as [receiving|ex]; [|simpl; auto].
    destruct (play_next_demo_attrs receiving st1 st2 Hattrs) as (Hres & Hst).
    destruct (_play_next_demo receiving st1) as [r1 s1],
             (_play_next_demo receiving st2) as [r2 s2].
    simpl in Hres, Hst. subst r2. destruct r1 as [target|ex]; [|simpl; auto].
    now apply IH.
  - destruct (play_next_goal_attrs refining st1 st2 Hattrs) as (Hres & Hst).
    destruct (_play_next_goal refining st1) as [r1 s1],
             (_play_next_goal refining st2) as [r2 s2].
    simpl in Hres, Hst. subst r2. destruct r1 as [r|ex]; [|simpl; auto].
    assert (Hl : learner s1 = learner s2) by (unfold attrs in Hst; congruence).
    rewrite Hl. now apply IH.
  - now apply IH.
Qed.

(** X18: [play] starts from the disk and the superclass alone: on two
    instances with the same files, dataset path and superclass state,
    whatever their counters and their sequences in memory, it returns
    the same timeline or raises the same exception, and leaves the same
    counters and the same superclass state. *)
Theorem play_ignores_memory keep_targets refining st1 st2 :
  fs st1 = fs st2 -> dataset_path st1 = dataset_path st2 -> learner st1 = learner st2 ->
  let r1 := play keep_targets refining st1 in
  let r2 := play keep_targets refining st2 in
  fst r1 = fst r2 /\
  record_demo_id (snd r1) = record_demo_id (snd r2) /\
  record_goal_id (snd r1) = record_goal_id (snd r2) /\
  learner (snd r1) = learner (snd r2).
Proof.
  intros Hfs Hp Hl. cbv zeta.
  destruct (files (fs st1) !! sequence_file (dataset_path st1)) as [manifest|] eqn:Hm.
  - rewrite (play_unfold _ _ st1 manifest Hm).
    rewrite Hfs, Hp in Hm. rewrite (play_unfold _ _ st2 manifest Hm). cbv zeta.
    destruct (iterate manifest) as [events|ex].
    + match goal with
      | |- context [fst (play_loop _ _ _ _ ?a) = fst (play_loop _ _ _ _ ?b)] =>
          destruct (play_loop_attrs keep_targets refining events [] a b) as (Hres & Hst)
      end.
      { unfold attrs. simpl. congruence. }
      unfold attrs in Hst. injection Hst as _ _ Hd Hg _ Hl'. auto.
    + simpl. auto.
  - rewrite (play_no_manifest _ _ st1 Hm).
    rewrite Hfs, Hp in Hm. rewrite (play_no_manifest _ _ st2 Hm).
    simpl. rewrite Hp. auto.
Qed.

End Timeline.

(** ** Replaying a session, with either choice of targets *)

Section Reconstruction.

Context {L : Type} {LL : Learner L}.

Implicit Types st : State L.

Variable keep_targets : bool.

Hypothesis Hrefining : forall x j l,
  L_set_goal x j (Some true) l = L_set_goal x j None l.
Hypothesis Hchoose : forall d e l,
  L_add_demonstration d e (Some (-1)) l = L_add_demonstration d e None l.
Hypothesis Hforce : keep_targets = true ->
  forall d e l l' k,
    L_add_demonstration d e None l = (l', Ok k) ->
    k < Z.of_nat (L_num_primitives l) ->
    L_add_demonstration d e (Some k) l = (l', Ok k).
Hypothesis Htrajectory : forall x j r l l',
  L_set_goal x j r l = (l', Ok true) ->
  exists t, L_generate_trajectory l' = (l', Ok t).

Lemma play_loop_recorded_demo refining k events timeline st :
  play_loop keep_targets refining (demo_event k :: events) timeline st =
  match _play_next_demo (JNum (if keep_targets then k else -1)) st with
  | (Ok target, st1) =>
      play_loop keep_targets refining events (timeline ++ [demo_result target]) st1
  | (Raise ex, st1) => (Raise ex, st1)
  end.
Proof. destruct keep_targets; reflexivity. Qed.

Lemma resubmitted_like_recorded d e l l' k :
  L_add_demonstration d e None l = (l', Ok k) ->
  L_add_demonstration d e
    (Some (promp_target (L_num_primitives l) (if keep_targets then k else -1))) l
  = (l', Ok k).
Proof.
  intros HL. destruct keep_targets eqn:Ekeep.
  - unfold promp_target. destruct (Z.leb_spec (Z.of_nat (L_num_primitives l)) k).
    + now rewrite Hchoose.
    + now apply Hforce.
  - unfold promp_target. destruct (Z.of_nat (L_num_primitives l) <=? -1);
      now rewrite Hchoose.
Qed.

Lemma replay_reconstructs calls :
  forall st outs st' items,
  record calls st = (Ok outs, st') ->
  sequence st = JArr items ->
  (forall i, record_goal_id st <= i ->
     files (fs st) !! payload_file (dataset_path st) KJoint i = None) ->
  exists events,
    sequence st' = JArr (items ++ events) /\
    forall rp timeline,
      dataset_path rp = dataset_path st -> learner rp = learner st ->
      record_demo_id rp = record_demo_id st -> record_goal_id rp = record_goal_id st ->
      (forall k i, counter_of k st <= i ->
         files (fs rp) !! payload_file (dataset_path st) k i =
         files (fs st') !! payload_file (dataset_path st) k i) ->
      exists timeline' rp',
        play_loop keep_targets true events timeline rp = (Ok (timeline ++ timeline'), rp') /\
        map observe timeline' = map Some outs /\
        learner rp' = learner st' /\
        record_demo_id rp' = record_demo_id st' /\
        record_goal_id rp' = record_goal_id st'.
Proof.
  induction calls as [|c calls IH]; intros st outs st' items Hrun Hseq Hjoint.
  - simpl in Hrun. unfold ret in Hrun. simplify_eq.
    exists []. split; [now rewrite app_nil_r|].
    intros rp timeline _ Hl Hd Hg _. exists [], rp. simpl. unfold ret.
    rewrite app_nil_r. auto.
  - apply record_cons in Hrun as (o & st1 & outs' & H1 & Hrest & ->).
    pose proof (record_frame _ _ _ _ Hrest) as Hframe.
    apply record_one_Ok in H1. destruct c as [d e|x j].
    + destruct H1 as (k & -> & H1).
      apply add_demonstration_Ok in H1
        as (l & items0 & HL & Hseq0 & Hseq1 & Hl1 & Hp1 & Hd1 & Hg1 & Hfs1).
      rewrite Hseq in Hseq0. injection Hseq0 as <-.
      rewrite Hp1 in Hframe.
      destruct (IH st1 outs' st' (items ++ [demo_event k]) Hrest Hseq1)
        as (events & Hseq' & Hreplay).
      { intros i Hi. rewrite Hp1, Hfs1.
        rewrite !lookup_write_file_ne; [apply Hjoint; lia|..]; payload_ne. }
      exists (demo_event k :: events). split.
      { rewrite Hseq', <- app_assoc. reflexivity. }
      intros rp timeline Hrp_path Hrp_l Hrp_d Hrp_g Hagree.
      assert (Hd : files (fs rp) !! payload_file (dataset_path rp) KDemo (record_demo_id rp)
                   = Some d).
      { rewrite Hrp_path, Hrp_d, Hagree by (simpl; lia).
        rewrite Hframe by (left; simpl; lia). rewrite Hfs1.
        rewrite lookup_write_file_ne by payload_ne. apply lookup_write_file_eq. }
      assert (He : files (fs rp) !! payload_file (dataset_path rp) KPath (record_demo_id rp)
                   = Some e).
      { rewrite Hrp_path, Hrp_d, Hagree by (simpl; lia).
        rewrite Hframe by (left; simpl; lia). rewrite Hfs1.
        apply lookup_write_file_eq. }
      rewrite play_loop_recorded_demo, (play_next_demo_run _ rp d e Hd He). cbv zeta.
      rewrite Hrp_l, (resubmitted_like_recorded d e _ l k HL).
      match goal with
      | |- context [play_loop keep_targets true events ?tl ?rp1] =>
          destruct (Hreplay rp1 tl) as (timeline' & rp' & Hplay & Hobs & Hfinal)
      end; prj; try congruence.
      { intros k0 i Hi. rewrite Hp1. apply Hagree.
        destruct k0; simpl in *; lia. }
      exists (demo_result k :: timeline'), rp'. repeat apply conj; try apply Hfinal.
      * rewrite Hplay, <- app_assoc. reflexivity.
      * simpl. now rewrite Hobs.
    + destruct H1 as (b & -> & H1).
      apply set_goal_Ok in H1
        as (l & items0 & HL & Hseq0 & Hseq1 & Hl1 & Hp1 & Hd1 & Hg1 & Hfs1).
      rewrite Hseq in Hseq0. injection Hseq0 as <-.
      rewrite Hp1 in Hframe.
      destruct (IH st1 outs' st' _ Hrest Hseq1) as (events & Hseq' & Hreplay).
      { intros i Hi. rewrite Hp1, Hfs1.
        destruct (is_none j); rewrite !lookup_write_file_ne; try (apply Hjoint; lia);
          payload_ne. }
      exists (goal_event (L_goal_id l) (L_goal_log l) :: events). split.
      { rewrite Hseq', <- app_assoc. reflexivity. }
      intros rp timeline Hrp_path Hrp_l Hrp_d Hrp_g Hagree.
      assert (Hx : files (fs rp) !! payload_file (dataset_path rp) KCart (record_goal_id rp)
                   = Some x).
      { rewrite Hrp_path, Hrp_g, Hagree by (simpl; lia).
        rewrite Hframe by (left; simpl; lia). rewrite Hfs1.
        destruct (is_none j); [apply lookup_write_file_eq|].
        rewrite lookup_write_file_ne by payload_ne. apply lookup_write_file_eq. }
      assert (Hj : default JNull
                     (files (fs rp) !! payload_file (dataset_path rp) KJoint (record_goal_id rp))
                   = j).
      { rewrite Hrp_path, Hrp_g, Hagree by (simpl; lia).
        rewrite Hframe by (left; simpl; lia). rewrite Hfs1.
        destruct j; cbn [is_none]; rewrite ?lookup_write_file_eq; try reflexivity.
        rewrite lookup_write_file_ne by payload_ne.
        rewrite Hjoint by lia. reflexivity. }
      rewrite play_loop_goal, (play_next_goal_run true rp x Hx). cbv zeta.
      rewrite Hj, Hrp_l, Hrefining, HL.
      destruct b.
      * destruct (Htrajectory _ _ _ _ _ HL) as (t & Ht). rewrite Ht. prj.
        match goal with
        | |- context [play_loop keep_targets true events ?tl ?rp1] =>
            destruct (Hreplay rp1 tl) as (timeline' & rp' & Hplay & Hobs & Hfinal)
        end; prj; try congruence.
        { intros k0 i Hi. rewrite Hp1. apply Hagree.
          destruct k0; simpl in *; lia. }
        exists (goal_result true (L_goal_log l) t :: timeline'), rp'.
        repeat apply conj; try apply Hfinal.
        -- rewrite Hplay, <- app_assoc. reflexivity.
        -- simpl. now rewrite Hobs.
      * prj.
        match goal with
        | |- context [play_loop keep_targets true events ?tl ?rp1] =>
            destruct (Hreplay rp1 tl) as (timeline' & rp' & Hplay & Hobs & Hfinal)
        end; prj; try congruence.
        { intros k0 i Hi. rewrite Hp1. apply Hagree.
          destruct k0; simpl in *; lia. }
        exists (goal_result false (L_goal_log l) JNull :: timeline'), rp'.
        repeat apply conj; try apply Hfinal.
        -- rewrite Hplay, <- app_assoc. reflexivity.
        -- simpl. now rewrite Hobs.
Qed.

Lemma replay_after_close calls st0 outs st1 st2 :
  sequence st0 = JArr [] ->
  record_demo_id st0 = 0 -> record_goal_id st0 = 0 ->
  (forall i, 0 <= i ->
     files (fs st0) !! payload_file (dataset_path st0) KJoint i = None) ->
  record calls st0 = (Ok outs, st1) ->
  close st1 = (Ok tt, st2) ->
  exists timeline st3,
    play keep_targets true (set_learner (learner st0) st2) = (Ok timeline, st3) /\
    map observe timeline = map Some outs /\
    learner st3 = learner st1 /\
    record_demo_id st3 = record_demo_id st1 /\
    record_goal_id st3 = record_goal_id st1.
Proof.
  intros Hseq Hd Hg Hjoint Hrec Hclose.
  destruct (replay_reconstructs calls st0 outs st1 [] Hrec Hseq) as (events & Hseq1 & Hreplay).
  { intros i Hi. apply Hjoint. lia. }
  simpl in Hseq1.
  apply record_counters in Hrec as (_ & _ & Hpath).
  rewrite close_run in Hclose. simpl in Hclose.
  destruct (L_clear (learner st1)) as [lc rc]. injection Hclose as -> <-.
  rewrite (play_unfold keep_targets true _ (JArr events)); simpl.
  2:{ rewrite Hseq1. apply lookup_insert_eq. }
  match goal with
  | |- context [play_loop keep_targets true events [] ?rp] =>
      destruct (Hreplay rp []) as (timeline & st3 & Hplay & Hobs & Hfinal)
  end; simpl; try congruence.
  { intros k i _. rewrite <- Hpath. apply lookup_insert_ne.
    apply sequence_file_not_payload. }
  exists timeline, st3. auto.
Qed.

End Reconstruction.

Section Reconstructed.

Context {L : Type} {LL : Learner L}.

(** X19: replaying with the recorded targets rebuilds the superclass:
    under the conditions of the round trip, when [play(True, True)]
    returns, the state of the superclass is the one the recording
    session had reached before [close] cleared it, and the counters are
    those the session had reached. *)
Theorem replay_rebuilds_learner calls (st0 : State L) outs st1 st2 :
  Replayable L ->
  sequence st0 = JArr [] ->
  record_demo_id st0 = 0 -> record_goal_id st0 = 0 ->
  (forall i, 0 <= i ->
     files (fs st0) !! payload_file (dataset_path st0) KJoint i = None) ->
  record calls st0 = (Ok outs, st1) ->
  close st1 = (Ok tt, st2) ->
  exists timeline st3,
    play true true (set_learner (learner st0) st2) = (Ok timeline, st3) /\
    learner st3 = learner st1 /\
    record_demo_id st3 = record_demo_id st1 /\
    record_goal_id st3 = record_goal_id st1.
Proof.
  intros HR Hseq Hd Hg Hjoint Hrec Hclose.
  destruct (replay_after_close true (default_refining L HR) (choose_target L HR)
              (fun _ => forced_target L HR) (trajectory_pure L HR)
              calls st0 outs st1 st2 Hseq Hd Hg Hjoint Hrec Hclose)
    as (timeline & st3 & Hplay & _ & Hfinal).
  exists timeline, st3. auto.
Qed.

(** X20: replaying with recomputed targets gives the recorded outcomes
    too, and rebuilds the superclass, when the superclass decides from
    its state and the payloads alone: it is enough that it treats the
    target [-1] as no target and an omitted [refining] as [True], and
    that a trajectory after a goal that was taken leaves its state as
    it is; nothing is asked of forced targets. *)
Theorem replay_recomputed_round_trip calls (st0 : State L) outs st1 st2 :
  (forall x j l, L_set_goal x j (Some true) l = L_set_goal x j None l) ->
  (forall d e l, L_add_demonstration d e (Some (-1)) l = L_add_demonstration d e None l) ->
  (forall x j r l l', L_set_goal x j r l = (l', Ok true) ->
     exists t, L_generate_trajectory l' = (l', Ok t)) ->
  sequence st0 = JArr [] ->
  record_demo_id st0 = 0 -> record_goal_id st0 = 0 ->
  (forall i, 0 <= i ->
     files (fs st0) !! payload_file (dataset_path st0) KJoint i = None) ->
  record calls st0 = (Ok outs, st1) ->
  close st1 = (Ok tt, st2) ->
  exists timeline st3,
    play false true (set_learner (learner st0) st2) = (Ok timeline, st3) /\
    map observe timeline = map Some outs /\
    learner st3 = learner st1.
Proof.
  intros Hrefining Hchoose Htrajectory Hseq Hd Hg Hjoint Hrec Hclose.
  destruct (replay_after_close false Hrefining Hchoose
              (fun H => False_ind _ (Bool.diff_false_true H)) Htrajectory
              calls st0 outs st1 st2 Hseq Hd Hg Hjoint Hrec Hclose)
    as (timeline & st3 & Hplay & Hobs & Hl & _).
  exists timeline, st3. auto.
Qed.

End Reconstructed.

(** ** Witnesses for the further properties *)

Lemma auto_id_least_witness :
  path_exists (fs Toy.st0) (get_dataset_path "ds" 0) = true.
Proof.
  apply (auto_id_least "ds" (-1) (fs Toy.st0) 1 "ds/dataset_1" (fs Toy.st0')).
  - lia.
  - vm_compute. reflexivity.
  - lia.
Defined.

Lemma init_postcondition_witness :
  path_exists (fs Toy.st0') (dataset_path Toy.st0') = true /\
  path_exists (fs Toy.st0') "ds/dataset_0" = true /\
  dataset_path Toy.st0' = get_dataset_path "ds" 1 /\
  path_exists (fs Toy.st0) (dataset_path Toy.st0') = false.
Proof.
  destruct (init_postcondition "ds" (-1) "/tmp/plots" (fs Toy.st0) Toy.st0' (fs Toy.st0'))
    as (_ & Hdir & Hkept & Hpath & _ & _ & Hauto & _).
  - vm_compute. reflexivity.
  - repeat apply conj.
    + exact Hdir.
    + apply Hkept. vm_compute. reflexivity.
    + exact Hpath.
    + apply Hauto. lia.
Defined.

Lemma init_superclass_failure_witness :
  init (LL := failing_init) "ds" (-1) "/tmp/plots" Toy.empty_fs
    = (Raise (LearnerError 9), fs Toy.st0) /\
  path_exists (fs Toy.st0) "ds/dataset_0" = true.
Proof.
  apply (init_superclass_failure (LL := failing_init) "ds" (-1) "/tmp/plots"
           Toy.empty_fs 0 "ds/dataset_0" (fs Toy.st0) (LearnerError 9)).
  - vm_compute. reflexivity.
  - reflexivity.
Defined.

Lemma explicit_id_idempotent_witness :
  snd (resolve_dataset "ds" 3 (snd (resolve_dataset "ds" 3 Toy.empty_fs)))
    = snd (resolve_dataset "ds" 3 Toy.empty_fs).
Proof.
  apply (proj1 (explicit_id_idempotent "ds" 3 Toy.empty_fs ltac:(lia))).
Defined.

Lemma dataset_paths_distinct_witness : (3 : Z) = 3.
Proof.
  apply (dataset_paths_distinct "ds" 3 3). reflexivity.
Defined.

Lemma payload_files_distinct_witness :
  KDemo = KDemo /\ (0 : Z) = 0.
Proof.
  apply (proj1 (proj1 (payload_files_distinct "ds/dataset_0" KDemo 0 KDemo 0))).
  reflexivity.
Defined.


Lemma failed_demonstration_overwritten_witness :
  files (fs (snd (add_demonstration JNull (JStr "eef") Toy.st0)))
    !! "ds/dataset_0/demo_0.json" = Some JNull /\
  files (fs (snd (add_demonstration (JNum 7) (JStr "eef")
                    (snd (add_demonstration JNull (JStr "eef") Toy.st0)))))
    !! "ds/dataset_0/demo_0.json" = Some (JNum 7).
Proof.
  destruct (failed_demonstration_overwritten JNull (JStr "eef") (JNum 7) (JStr "eef")
              Toy.st0 Toy.fresh (LearnerError 1) (Toy.mk [1%nat] (-1) JNull) 0 [])
    as (Horphan & _ & _ & Hover & _).
  - reflexivity.
  - reflexivity.
  - reflexivity.
  - split; [exact Horphan | exact Hover].
Defined.

Lemma recording_leaves_manifest_witness :
  files (fs Toy.recorded) !! "ds/dataset_0/sequence.json" = None /\
  exists more, sequence Toy.recorded = JArr ([] ++ more).
Proof.
  destruct (recording_leaves_manifest Toy.session Toy.st0) as (_ & _ & Hfile & _ & _ & Hseq).
  split.
  - exact Hfile.
  - apply Hseq. reflexivity.
Defined.

Lemma recorded_payloads_by_index_witness :
  files (fs (snd (record Toy.long_session Toy.st0))) !! "ds/dataset_0/demo_1.json"
    = Some (JNum 0) /\
  files (fs (snd (record Toy.long_session Toy.st0))) !! "ds/dataset_0/joint_goal_1.json"
    = Some (JStr "joint").
Proof.
  destruct (recorded_payloads_by_index Toy.long_session Toy.st0
              [AddedTo 0; IsReached true; AddedTo 0; IsReached false]
              (snd (record Toy.long_session Toy.st0))) as (Hdemos & Hgoals).
  - vm_compute. reflexivity.
  - split.
    + apply (proj1 (Hdemos 1%nat (JNum 0) (JStr "eef2") eq_refl)).
    + apply (proj2 (Hgoals 1%nat (JNum 5) (JStr "joint") eq_refl)). reflexivity.
Defined.


Lemma missing_payload_raises_witness :
  _play_next_demo (JNum 0) Toy.st0
    = (Raise (IOError (payload_file "ds/dataset_0" KDemo 0)), Toy.st0).
Proof.
  apply (proj1 (missing_payload_raises Toy.st0) (JNum 0)).
  apply lookup_empty.
Defined.

Lemma play_next_goal_effect_witness :
  fst (_play_next_goal true Toy.closed) = Ok (false, JNull) /\
  record_goal_id (snd (_play_next_goal true Toy.closed)) = 1.
Proof.
  destruct (play_next_goal_effect true Toy.closed (JNum 0)) as (Hg & _ & _ & Hno & _).
  - vm_compute. reflexivity.
  - split; [|exact Hg].
    apply (proj1 (Hno (Toy.mk [] 0 (JNum 0)) ltac:(vm_compute; reflexivity))).
Defined.

Lemma play_reads_only_witness :
  fst (play true true Toy.st0) = Raise (IOError "ds/dataset_0/sequence.json").
Proof.
  destruct (play_reads_only true true Toy.st0) as (_ & _ & Hmissing & _).
  rewrite Hmissing by apply lookup_empty. reflexivity.
Defined.

Lemma timeline_one_entry_per_event_witness :
  Forall2 (fun event entry =>
             if event_is "demo" event then exists target, entry = demo_result target
             else exists is_reached goal_log trajectory,
                    entry = goal_result is_reached goal_log trajectory)
    [demo_event 0; goal_event (JNum 0) (JNum 0)]
    [demo_result 0; goal_result true (JNum 0) (JArr [JNum 0])].
Proof.
  destruct (timeline_one_entry_per_event true true annotated
              [demo_result 0; goal_result true (JNum 0) (JArr [JNum 0])]
              (snd (play true true annotated)))
    as (manifest & events & Hm & _ & Hitems & Hanswers & _).
  - vm_compute. reflexivity.
  - vm_compute in Hm. injection Hm as <-.
    rewrite (Hitems _ eq_refl) in Hanswers. exact Hanswers.
Defined.

Lemma play_ignores_memory_witness :
  fst (play true true Toy.closed)
    = fst (play true true (set_sequence JNull (set_record_demo_id 5 Toy.closed))).
Proof.
  apply (play_ignores_memory true true Toy.closed
           (set_sequence JNull (set_record_demo_id 5 Toy.closed))).
  - vm_compute. reflexivity.
  - vm_compute. reflexivity.
  - vm_compute. reflexivity.
Defined.

Lemma replay_rebuilds_learner_witness :
  exists timeline st3,
    play true true
      (set_learner (learner Toy.st0) (snd (close (snd (record Toy.long_session Toy.st0)))))
    = (Ok timeline, st3) /\
    learner st3 = learner (snd (record Toy.long_session Toy.st0)).
Proof.
  destruct (replay_rebuilds_learner Toy.long_session Toy.st0
              [AddedTo 0; IsReached true; AddedTo 0; IsReached false]
              (snd (record Toy.long_session Toy.st0))
              (snd (close (snd (record Toy.long_session Toy.st0)))))
    as (timeline & st3 & Hplay & Hl & _).
  - exact Toy_replayable.
  - reflexivity.
  - reflexivity.
  - reflexivity.
  - intros i _. apply lookup_empty.
  - vm_compute. reflexivity.
  - vm_compute. reflexivity.
  - exists timeline, st3. auto.
Defined.

Lemma replay_recomputed_round_trip_witness :
  exists timeline st3,
    play false true
      (set_learner (learner Toy.st0) (snd (close (snd (record Toy.long_session Toy.st0)))))
    = (Ok timeline, st3) /\
    map observe timeline =
      [Some (AddedTo 0); Some (IsReached true); Some (AddedTo 0); Some (IsReached false)].
Proof.
  destruct (replay_recomputed_round_trip Toy.long_session Toy.st0
              [AddedTo 0; IsReached true; AddedTo 0; IsReached false]
              (snd (record Toy.long_session Toy.st0))
              (snd (close (snd (record Toy.long_session Toy.st0)))))
    as (timeline & st3 & Hplay & Hobs & _).
  - exact (default_refining _ Toy_replayable).
  - exact (choose_target _ Toy_replayable).
  - exact (trajectory_pure _ Toy_replayable).
  - reflexivity.
  - reflexivity.
  - reflexivity.
  - intros i _. apply lookup_empty.
  - vm_compute. reflexivity.
  - vm_compute. reflexivity.
  - exists timeline, st3. auto.
Defined.
